(** * GitHub Open Graph thumbnail downloader: resolver and fetcher

    A shallow embedding of [main.py]: the URL parser [parse_owner_repo], the
    resolver [resolve_og] with its GraphQL and HTML paths, the cache lookup
    [find_cached], the downloader [download_with_retry] and the handlers
    [fetch], [save] and [api_og], followed by the properties of the
    specification that concern them and by further properties of the code.

    Python [str] values are embedded as [string]; every character is a code
    point below 256.  Library functions the program calls ([urlparse],
    [str.split], [re.sub], [pathlib] globbing, ...) are embedded next to the
    program function that uses them. *)

From Stdlib Require Import ZArith QArith Lia Lqa Ascii String List Bool.
From stdpp Require Import base option list strings gmap.

Open Scope string_scope.

(** ** Characters and strings (Python [str] methods) *)

Module Str.

Definition ord (c : ascii) : N := N_of_ascii c.

Definition between (lo hi : N) (c : ascii) : bool :=
  ((lo <=? ord c) && (ord c <=? hi))%N.

Definition TAB : ascii := "009".
Definition LF : ascii := "010".
Definition CR : ascii := "013".

(** [c in chars] for a one-character [c]. *)
Fixpoint mem (c : ascii) (chars : string) : bool :=
  match chars with
  | "" => false
  | String d rest => Ascii.eqb c d || mem c rest
  end.

Definition isalpha_ascii (c : ascii) : bool := between 65 90 c || between 97 122 c.
Definition isdigit (c : ascii) : bool := between 48 57 c.

(** [str.lower] on one code point below 256: A-Z, and the Latin-1 capitals
    (U+00C0 to U+00DE without the multiplication sign). *)
Definition lower_char (c : ascii) : ascii :=
  if between 65 90 c || (between 192 222 c && negb (ord c =? 215)%N)
  then ascii_of_N (ord c + 32) else c.

Fixpoint lower (s : string) : string :=
  match s with
  | "" => ""
  | String c rest => String (lower_char c) (lower rest)
  end.

Fixpoint startswith (p s : string) : bool :=
  match p, s with
  | "", _ => true
  | String a p', String b s' => Ascii.eqb a b && startswith p' s'
  | String _ _, "" => false
  end.

(** [sub in s] *)
Fixpoint contains (sub s : string) : bool :=
  startswith sub s ||
  match s with
  | "" => false
  | String _ rest => contains sub rest
  end.

Fixpoint endswith (suffix s : string) : bool :=
  String.eqb suffix s ||
  match s with
  | "" => false
  | String _ rest => endswith suffix rest
  end.

(** Cut [s] before its first character that satisfies [p]: the second
    component is empty, or starts with that character. *)
Fixpoint break (p : ascii -> bool) (s : string) : string * string :=
  match s with
  | "" => ("", "")
  | String c rest =>
      if p c then ("", s)
      else let '(a, b) := break p rest in (String c a, b)
  end.

Definition tail (s : string) : string :=
  match s with "" => "" | String _ rest => rest end.

(** [s.replace(c, "")] for every [c] of [chars]. *)
Fixpoint remove (chars : string) (s : string) : string :=
  match s with
  | "" => ""
  | String c rest => if mem c chars then remove chars rest else String c (remove chars rest)
  end.

(** [s.lstrip(...)] for a set of characters given as a predicate. *)
Fixpoint lstrip (p : ascii -> bool) (s : string) : string :=
  match s with
  | "" => ""
  | String c rest => if p c then lstrip p rest else s
  end.

Fixpoint forallb (p : ascii -> bool) (s : string) : bool :=
  match s with
  | "" => true
  | String c rest => p c && forallb p rest
  end.

(** [s.split(sep)] for a one-character separator. *)
Fixpoint split (sep : ascii) (s : string) : list string :=
  match s with
  | "" => [""]
  | String c rest =>
      if Ascii.eqb c sep then "" :: split sep rest
      else match split sep rest with
           | x :: more => String c x :: more
           | [] => [String c ""]
           end
  end.

Definition nonempty (s : string) : bool :=
  match s with "" => false | _ => true end.

Fixpoint map (f : ascii -> ascii) (s : string) : string :=
  match s with
  | "" => ""
  | String c rest => String (f c) (map f rest)
  end.

(** [b"".join(parts)] *)
Fixpoint join (parts : list string) : string :=
  match parts with
  | [] => ""
  | s :: more => s +:+ join more
  end.

End Str.

(** ** Exceptions and results *)

Inductive exn : Type :=
| ValueError (msg : string)
| RuntimeError (msg : string)
| HTTPError (status : Z)
| RequestException (what : string)
| JSONDecodeError
| AttributeError
| OSError (what : string).

Inductive result (A : Type) : Type :=
| Ok (a : A)
| Raise (e : exn).
Arguments Ok {A} a.
Arguments Raise {A} e.

Definition rbind {A B : Type} (r : result A) (k : A -> result B) : result B :=
  match r with
  | Ok a => k a
  | Raise e => Raise e
  end.


Definition DownloadFailed (e : exn) : Prop :=
  match e with
  | HTTPError _ | RequestException _ | OSError _ => True
  | _ => False
  end.

(** ** The parts of the Python library taken as given *)

(** [check_bracketed_host] is [urllib.parse]'s validation of a bracketed
    host (an IP literal); [guess_extension] is [mimetypes.guess_extension],
    whose table depends on the platform and whose results include the
    leading dot. *)
Class PyLib : Type := {
  check_bracketed_host : string -> bool;
  guess_extension : string -> option string;
  guess_extension_dot :
    forall t e, guess_extension t = Some e -> e <> "" -> exists e', e = String "." e'
}.

(** ** [urllib.parse.urlparse] *)

Module Url.

Record ParseResult : Type := {
  scheme : string;
  netloc : string;
  path : string;
  params : string;
  query : string;
  fragment : string
}.

Definition scheme_char (c : ascii) : bool :=
  Str.isalpha_ascii c || Str.isdigit c || Str.mem c "+-.".

Definition c0_or_space (c : ascii) : bool := (Str.ord c <=? 32)%N.

Definition uses_params : list string :=
  [""; "ftp"; "hdl"; "prospero"; "http"; "imap"; "https"; "shttp"; "rtsp";
   "rtsps"; "rtspu"; "sip"; "sips"; "mms"; "sftp"; "tel"].

(** The scheme, when the text before the first colon is one. *)
Definition split_scheme (url : string) : string * string :=
  let '(pre, rest) := Str.break (Ascii.eqb ":") url in
  match rest, pre with
  | String _ after, String c0 _ =>
      if Str.isalpha_ascii c0 && Str.forallb scheme_char pre
      then (Str.lower pre, after) else ("", url)
  | _, _ => ("", url)
  end.

(** [_splitnetloc(url, 2)] after a leading [//]. *)
Definition split_netloc (url : string) : string * string :=
  match url with
  | String "/" (String "/" rest) => Str.break (fun c => Str.mem c "/?#") rest
  | _ => ("", url)
  end.

(** [netloc.rpartition('@')[2]]: the text after the last [@], the whole
    text when there is none. *)
Fixpoint rpartition_at (s : string) : string :=
  match s with
  | "" => ""
  | String c rest => if Str.mem "@" rest then rpartition_at rest
                     else if Ascii.eqb c "@" then rest else s
  end.

(** [_check_bracketed_host], with the text that stands for the message of
    the library. *)
Definition check_host `{PyLib} (hostname : string) : result unit :=
  if check_bracketed_host hostname then Ok tt
  else Raise (ValueError "invalid bracketed host").

(** [_check_bracketed_netloc]: in the text after the last [@] nothing may
    stand before the bracket, and after the closing bracket nothing but a
    colon and a port; the host that is validated is the bracketed one, or
    the text before the first colon when the brackets are elsewhere. *)
Definition check_bracketed_netloc `{PyLib} (netloc : string) : result unit :=
  let hostname_and_port := rpartition_at netloc in
  let '(before_bracket, bracketed) := Str.break (Ascii.eqb "[") hostname_and_port in
  match bracketed with
  | String _ inner =>
      if Str.nonempty before_bracket then Raise (ValueError "Invalid IPv6 URL")
      else
        let '(hostname, closing) := Str.break (Ascii.eqb "]") inner in
        let port := Str.tail closing in
        if Str.nonempty port && negb (Str.startswith ":" port)
        then Raise (ValueError "Invalid IPv6 URL")
        else check_host hostname
  | "" => check_host (fst (Str.break (Ascii.eqb ":") hostname_and_port))
  end.

(** The tests of [urlsplit] on the network location. *)
Definition check_brackets `{PyLib} (netloc : string) : result unit :=
  let has_open := Str.mem "[" netloc in
  let has_close := Str.mem "]" netloc in
  if (has_open && negb has_close) || (has_close && negb has_open)
  then Raise (ValueError "Invalid IPv6 URL")
  else if has_open && has_close
  then check_bracketed_netloc netloc
  else Ok tt.

(** [_splitparams]: the parameters of the last path segment. *)
Fixpoint strip_params (url : string) : string * string :=
  match url with
  | "" => ("", "")
  | String c rest =>
      if Str.mem "/" rest
      then let '(p, q) := strip_params rest in (String c p, q)
      else if Ascii.eqb c "/"
      then let '(p, q) := Str.break (Ascii.eqb ";") rest in (String c p, Str.tail q)
      else let '(p, q) := Str.break (Ascii.eqb ";") url in (p, Str.tail q)
  end.

Definition urlparse `{PyLib} (url : string) : result ParseResult :=
  let url := Str.lstrip c0_or_space url in
  let url := Str.remove (String Str.TAB (String Str.CR (String Str.LF ""))) url in
  let '(sch, url) := split_scheme url in
  let '(loc, url) := split_netloc url in
  rbind (check_brackets loc) (fun _ =>
  let '(url, frag) := Str.break (Ascii.eqb "#") url in
  let '(url, qry) := Str.break (Ascii.eqb "?") url in
  let '(url, prm) :=
    if bool_decide (sch ∈ uses_params) && Str.mem ";" url
    then strip_params url else (url, "") in
  Ok {| scheme := sch; netloc := loc; path := url; params := prm;
        query := Str.tail qry; fragment := Str.tail frag |}).

(** The [hostname] attribute: the network location without user
    information and port, in lower case. *)
Definition hostname (u : ParseResult) : option string :=
  let hostinfo := rpartition_at (netloc u) in
  let '(before, bracketed) := Str.break (Ascii.eqb "[") hostinfo in
  let host :=
    match bracketed with
    | String _ inner => fst (Str.break (Ascii.eqb "]") inner)
    | "" => fst (Str.break (Ascii.eqb ":") hostinfo)
    end in
  match host with
  | "" => None
  | _ => let '(h, zone) := Str.break (Ascii.eqb "%") host in
         Some (Str.lower h +:+ zone)
  end.

End Url.

(** ** [parse_owner_repo] *)

(** [re.sub(r"\.git$", "", s, flags=re.I)]: the pattern matches where the
    rest of the text is [.git] in any letter case, at the very end or before
    a final line feed. *)
Fixpoint sub_dot_git (s : string) : string :=
  match s with
  | "" => ""
  | String c rest =>
      if String.eqb (Str.lower s) ".git" then ""
      else if String.eqb (Str.lower s) (".git" +:+ String Str.LF "") then String Str.LF ""
      else String c (sub_dot_git rest)
  end.

(** Line 25 and 26: [https] is assumed when no scheme is given. *)
Definition with_scheme (repo_url : string) : string :=
  if Str.startswith "http://" repo_url || Str.startswith "https://" repo_url
  then repo_url else "https://" +:+ repo_url.

(** Line 30: the non-empty segments of the path. *)
Definition segments (path : string) : list string :=
  List.filter Str.nonempty (Str.split "/" path).

Definition parse_owner_repo `{PyLib} (repo_url : string) : result (string * string) :=
  rbind (Url.urlparse (with_scheme repo_url)) (fun parsed =>
  if negb (Str.contains "github.com" (Url.netloc parsed))
  then Raise (ValueError "URL must be a GitHub repository URL.")
  else
    match segments (Url.path parsed) with
    | owner :: second :: _ => Ok (owner, sub_dot_git second)
    | _ => Raise (ValueError "Could not parse owner/repo from URL.")
    end).

(** ** The world the program runs in *)

(** JSON documents, as [r.json()] returns them. *)
#[warnings="-register-all"]
Inductive json : Type :=
| JNull
| JBool (b : bool)
| JNum (q : Q)
| JStr (s : string)
| JArr (items : list json)
| JObj (fields : list (string * json)).

Inductive method : Type := GET | POST.

Record Request : Type := {
  req_method : method;
  req_url : string;
  req_headers : list (string * string);
  req_json : option json
}.

(** The views of a response that the program reads. *)
Record Response : Type := {
  status_code : Z;
  content_type : option string;
  text : string;
  json_doc : option json;
  chunks : list string;
  stream_error : option exn
}.

Inductive Reply : Type :=
| Answer (r : Response)
| NoAnswer (e : exn).

(** What the program cannot decide: the reply to its [n]-th request, the
    [n]-th value of [random.random()], and the environment variable. *)
Record Env : Type := {
  net : nat -> Request -> Reply;
  random : nat -> Q;
  GITHUB_TOKEN : option string
}.

(** The download directory [DL_DIR] holds regular files only, from name to
    content; requests and sleeps are logged latest first. *)
Record World : Type := {
  files : gmap string string;
  sent : list Request;
  slept : list Q;
  draws : nat
}.

Inductive outcome (A : Type) : Type :=
| Done (a : A) (w : World)
| Failed (e : exn) (w : World)
| Unmodelled.
Arguments Done {A} a w.
Arguments Failed {A} e w.
Arguments Unmodelled {A}.

Definition M (A : Type) : Type := World -> outcome A.

Definition ret {A : Type} (a : A) : M A := fun w => Done a w.
Definition raise {A : Type} (e : exn) : M A := fun w => Failed e w.

Definition bind {A B : Type} (m : M A) (k : A -> M B) : M B :=
  fun w => match m w with
           | Done a w' => k a w'
           | Failed e w' => Failed e w'
           | Unmodelled => Unmodelled
           end.

(** [try: m except Exception: h] *)
Definition catch {A : Type} (m : M A) (h : M A) : M A :=
  fun w => match m w with
           | Failed _ w' => h w'
           | other => other
           end.

Definition lift {A : Type} (r : result A) : M A :=
  match r with
  | Ok a => ret a
  | Raise e => raise e
  end.

Declare Scope py_scope.
Delimit Scope py_scope with py.
Notation "x <- m ;; k" := (bind m (fun x => k))
  (at level 100, m at next level, right associativity) : py_scope.
Notation "m ;;; k" := (bind m (fun _ => k))
  (at level 100, right associativity) : py_scope.
Open Scope py_scope.

Definition BROWSER_UA : string :=
  "Mozilla/5.0 (Windows NT 10.0; Win64; x64) AppleWebKit/537.36 " +:+
  "(KHTML, like Gecko) Chrome/124.0.0.0 Safari/537.36".
Definition GITHUB_GRAPHQL : string := "https://api.github.com/graphql".

(** ** [pathlib]: globbing in [DL_DIR] and suffixes (POSIX flavour) *)

Module Path.

(** [fnmatch] on one path component, case-sensitive: [*] stands for any run
    of characters, [?] for any one character, the rest for itself. *)
Fixpoint fnmatch (pat name : string) : bool :=
  match pat with
  | "" => negb (Str.nonempty name)
  | String "*" pat' =>
      (fix star (name : string) : bool :=
         fnmatch pat' name ||
         match name with
         | "" => false
         | String _ name' => star name'
         end) name
  | String "?" pat' =>
      match name with
      | "" => false
      | String _ name' => fnmatch pat' name'
      end
  | String c pat' =>
      match name with
      | "" => false
      | String d name' => Ascii.eqb c d && fnmatch pat' name'
      end
  end.

(** The patterns embedded here have one component and no character class:
    a pattern with a slash leaves the directory, and [**] inside a
    component and bracket expressions depend on the Python version. *)
Definition plain_pattern (pat : string) : bool :=
  negb (Str.mem "/" pat) && negb (Str.mem "[" pat) && negb (Str.contains "**" pat).

(** [DL_DIR.glob(pat)]: the names of [DL_DIR] that match, in directory
    order. *)
Definition glob (dir : gmap string string) (pat : string) : option (list string) :=
  if plain_pattern pat
  then Some (List.filter (fnmatch pat) (List.map fst (map_to_list dir)))
  else None.

(** [PurePath(p).name]: the last component, empty components and single
    dots dropped. *)
Definition component (s : string) : bool :=
  Str.nonempty s && negb (String.eqb s ".").

Definition name (p : string) : string :=
  List.last (List.filter component (Str.split "/" p)) "".

(** The part of [s] from its last dot on. *)
Fixpoint from_last_dot (s : string) : option string :=
  match s with
  | "" => None
  | String c rest =>
      match from_last_dot rest with
      | Some t => Some t
      | None => if Ascii.eqb c "." then Some s else None
      end
  end.

(** [PurePath(p).suffix]: [name[i:]] for [i = name.rfind('.')] when
    [0 < i < len(name) - 1], and the empty string otherwise. *)
Definition suffix (p : string) : string :=
  match name p with
  | "" => ""
  | String _ rest =>
      match from_last_dot rest with
      | Some (String d (String x more)) => String d (String x more)
      | _ => ""
      end
  end.

End Path.

(** ** The fetcher *)

Definition safe_char (c : ascii) : bool :=
  Str.between 97 122 c || Str.between 65 90 c || Str.between 48 57 c || Str.mem c "_.-".

(** [re.sub(r"[^a-zA-Z0-9_.-]", "_", s)] *)
Definition sanitize (s : string) : string :=
  Str.map (fun c => if safe_char c then c else "_"%char) s.

Definition image_suffixes : list string := [".png"; ".jpg"; ".jpeg"; ".webp"; ".gif"].

Definition rate_limited_message : string :=
  "GitHub rate-limited the image CDN (429). Try again shortly, or use " +:+
  "'Open image URL' and save it directly in your browser.".

Definition RateLimited (e : exn) : Prop := e = RuntimeError rate_limited_message.

Definition download_headers (owner repo : string) : list (string * string) :=
  [("User-Agent", BROWSER_UA);
   ("Accept", "image/avif,image/webp,image/apng,image/*,*/*;q=0.8");
   ("Referer", "https://github.com/" +:+ owner +:+ "/" +:+ repo);
   ("Cache-Control", "no-cache");
   ("Pragma", "no-cache")].

(** Line 94: the streamed GET of the image. *)
Definition download_request (url owner repo : string) : Request :=
  {| req_method := GET; req_url := url;
     req_headers := download_headers owner repo; req_json := None |}.

(** Line 109: the name of the cache file. *)
Definition cache_name (owner repo ext : string) : string :=
  sanitize (owner +:+ "-" +:+ repo +:+ "-opengraph" +:+ ext).

(** Line 74: the pattern of the cache lookup. *)
Definition cache_pattern (owner repo : string) : string :=
  owner +:+ "-" +:+ repo +:+ "-opengraph.*".

(** The statuses for which [raise_for_status] raises: client and server
    errors. *)
Definition http_error (status : Z) : bool :=
  ((400 <=? status) && (status <? 600))%Z.

Section Program.
Context `{PyLib} (env : Env).

(** [SESSION.get] and [SESSION.post] *)
Definition session_request (rq : Request) : M Response :=
  fun w =>
    let w' := {| files := files w; sent := rq :: sent w;
                 slept := slept w; draws := draws w |} in
    match net env (length (sent w)) rq with
    | Answer r => Done r w'
    | NoAnswer e => Failed e w'
    end.

Definition raise_for_status (r : Response) : M unit :=
  if http_error (status_code r)
  then raise (HTTPError (status_code r)) else ret tt.

(** [time.sleep] *)
Definition sleep (seconds : Q) : M unit :=
  fun w => Done tt {| files := files w; sent := sent w;
                      slept := seconds :: slept w; draws := draws w |}.

(** [random.uniform(a, b)] is [a + (b - a) * random()]. *)
Definition uniform (a b : Q) : M Q :=
  fun w => Done (a + (b - a) * random env (draws w))%Q
                {| files := files w; sent := sent w;
                   slept := slept w; draws := S (draws w) |}.

(** [open(out_path, "wb")] creates the file or empties it. *)
Definition open_wb (name : string) : M unit :=
  fun w => Done tt {| files := <[name := ""]> (files w); sent := sent w;
                      slept := slept w; draws := draws w |}.

(** [f.write(chunk)] *)
Definition file_write (name chunk : string) : M unit :=
  fun w => Done tt {| files := alter (fun old => old +:+ chunk) name (files w);
                      sent := sent w; slept := slept w; draws := draws w |}.

Definition find_cached (owner repo : string) : M (option string) :=
  fun w =>
    match Path.glob (files w) (cache_pattern owner repo) with
    | Some (p :: _) => Done (Some p) w
    | Some [] => Done None w
    | None => Unmodelled
    end.

(** The body of the [with] block: the chunks that [iter_content] yields,
    then the error that ends the stream, if any. *)
Fixpoint write_chunks (name : string) (body : list string) (err : option exn) : M unit :=
  match body with
  | [] => match err with
          | Some e => raise e
          | None => ret tt
          end
  | chunk :: more =>
      (if Str.nonempty chunk then file_write name chunk else ret tt) ;;;
      write_chunks name more err
  end.

Definition extension (url : string) (r : Response) : string :=
  let ctype := fst (Str.break (Ascii.eqb ";")
                      (Str.lower (default "" (content_type r)))) in
  let guess := if Str.nonempty ctype then guess_extension ctype else None in
  if Str.nonempty (default "" guess) then default "" guess
  else if existsb (fun sfx => Str.endswith sfx (Str.lower url)) image_suffixes
  then Path.suffix url
  else ".jpg".

(** The [for attempt in range(1, max_retries + 1)] loop with [n] attempts
    left, and the [raise] after it. *)
Fixpoint attempts (n : nat) (backoff : Q) (url owner repo : string) : M string :=
  match n with
  | O => raise (RuntimeError rate_limited_message)
  | S n' =>
      r <- session_request (download_request url owner repo) ;;
      if (status_code r =? 429)%Z then
        jitter <- uniform 0 (35 # 100) ;;
        sleep (backoff + jitter) ;;;
        attempts n' (backoff * 2)%Q url owner repo
      else
        raise_for_status r ;;;
        let ext := extension url r in
        let safe := cache_name owner repo ext in
        open_wb safe ;;;
        write_chunks safe (chunks r) (stream_error r) ;;;
        ret safe
  end.

Definition download_with_retry (url owner repo : string) (max_retries : Z) : M string :=
  cached <- find_cached owner repo ;;
  match cached with
  | Some p => ret p
  | None => attempts (Z.to_nat max_retries) 1 url owner repo
  end.

Definition default_max_retries : Z := 5.

End Program.

(** ** The resolver *)

(** The regular expression of [get_og_from_html], matched as [re.search]
    does with [re.I]: leftmost start, greedy repetitions, backtracking. *)
Module Re.

Inductive item : Type :=
| Lit (s : string)                (* the text, in any letter case *)
| One (p : ascii -> bool)         (* one character of a class *)
| Many (p : ascii -> bool)        (* class+ *)
| Group (p : ascii -> bool).      (* (class+), the group of the pattern *)

Fixpoint skip_lit (lit s : string) : option string :=
  match lit, s with
  | "", _ => Some s
  | String a lit', String b s' =>
      if Ascii.eqb (Str.lower_char a) (Str.lower_char b) then skip_lit lit' s' else None
  | String _ _, "" => None
  end.

(** Match [items] at the start of [s]; the result is the text of the
    group. *)
Fixpoint match_here (items : list item) (s : string) (group : option string)
  : option (option string) :=
  match items with
  | [] => Some group
  | Lit l :: rest =>
      match skip_lit l s with
      | Some s' => match_here rest s' group
      | None => None
      end
  | One p :: rest =>
      match s with
      | String c s' => if p c then match_here rest s' group else None
      | "" => None
      end
  | Many p :: rest =>
      (fix more (s : string) : option (option string) :=
         match s with
         | String c s' =>
             if p c then
               match more s' with
               | Some g => Some g
               | None => match_here rest s' group
               end
             else None
         | "" => None
         end) s
  | Group p :: rest =>
      (fix more (taken s : string) : option (option string) :=
         match s with
         | String c s' =>
             if p c then
               match more (taken +:+ String c "") s' with
               | Some g => Some g
               | None => match_here rest s' (Some (taken +:+ String c ""))
               end
             else None
         | "" => None
         end) "" s
  end.

Fixpoint search (items : list item) (s : string) : option (option string) :=
  match match_here items s None with
  | Some g => Some g
  | None => match s with
            | "" => None
            | String _ s' => search items s'
            end
  end.

Definition DQUOTE : ascii := "034".
Definition quote (c : ascii) : bool := Str.mem c (String DQUOTE "'").
Definition not_gt (c : ascii) : bool := negb (Ascii.eqb c ">").
Definition not_quote (c : ascii) : bool := negb (quote c).

(** The pattern: [<meta], characters other than [>], [property=], a quote
    of either kind, [og:image], a quote, characters other than [>],
    [content=], a quote, the group of characters other than quotes, and a
    quote. *)
Definition og_image : list item :=
  [Lit "<meta"; Many not_gt; Lit "property="; One quote; Lit "og:image";
   One quote; Many not_gt; Lit "content="; One quote; Group not_quote; One quote].

End Re.

(** Python values from JSON: [dict.get] and truth. *)
Definition dict_get (d : json) (key : string) (dflt : json) : result json :=
  match d with
  | JObj fields =>
      Ok (default dflt
            (snd <$> List.find (fun kv => String.eqb (fst kv) key) (rev fields)))
  | _ => Raise AttributeError
  end.

Definition truthy (v : json) : bool :=
  match v with
  | JNull => false
  | JBool b => b
  | JNum q => negb (Qnum q =? 0)%Z
  | JStr s => Str.nonempty s
  | JArr items => match items with [] => false | _ => true end
  | JObj fields => match fields with [] => false | _ => true end
  end.

(** [str.isspace] on code points below 256, for [str.strip]. *)
Definition isspace (c : ascii) : bool :=
  Str.between 9 13 c || Str.between 28 32 c || (Str.ord c =? 133)%N || (Str.ord c =? 160)%N.

Fixpoint rstrip (p : ascii -> bool) (s : string) : string :=
  match s with
  | "" => ""
  | String c rest =>
      match rstrip p rest with
      | "" => if p c then "" else String c ""
      | kept => String c kept
      end
  end.

Definition strip (s : string) : string := rstrip isspace (Str.lstrip isspace s).

Definition graphql_query : string :=
  "
    query($owner:String!, $name:String!){
      repository(owner:$owner, name:$name){ openGraphImageUrl }
    }".

(** Lines 42 to 48: the GraphQL query, with the bearer token. *)
Definition graphql_request (owner repo token : string) : Request :=
  {| req_method := POST; req_url := GITHUB_GRAPHQL;
     req_headers := [("Accept", "application/vnd.github+json");
                     ("Authorization", "Bearer " +:+ token);
                     ("User-Agent", BROWSER_UA)];
     req_json := Some (JObj [("query", JStr graphql_query);
                             ("variables", JObj [("owner", JStr owner);
                                                 ("name", JStr repo)])]) |}.

Section Resolver.
Context `{PyLib} (env : Env).

Definition get_og_via_graphql (owner repo token : string) : M json :=
  r <- session_request env (graphql_request owner repo token) ;;
  raise_for_status r ;;;
  doc <- match json_doc r with
         | Some doc => ret doc
         | None => raise JSONDecodeError
         end ;;
  data <- lift (dict_get doc "data" (JObj [])) ;;
  repository <- lift (dict_get (if truthy data then data else JObj [])
                               "repository" (JObj [])) ;;
  lift (dict_get repository "openGraphImageUrl" JNull).

Definition get_og_from_html (repo_url : string) : M (option string) :=
  r <- session_request env
         {| req_method := GET; req_url := repo_url;
            req_headers := [("User-Agent", BROWSER_UA)]; req_json := None |} ;;
  raise_for_status r ;;;
  ret (mjoin (Re.search Re.og_image (text r))).

(** The token of [resolve_og]: the stripped value of the environment
    variable, or [None] when nothing is left of it. *)
Definition configured_token : option string :=
  let token := strip (default "" (GITHUB_TOKEN env)) in
  if Str.nonempty token then Some token else None.

(** Lines 68 to 71: the scrape of the public page. *)
Definition scrape (owner repo : string) : M (string * string * json) :=
  url <- get_og_from_html ("https://github.com/" +:+ owner +:+ "/" +:+ repo) ;;
  match url with
  | Some u => ret (owner, repo, JStr u)
  | None => raise (RuntimeError "Could not find Open Graph image for this repository.")
  end.

Definition resolve_og (repo_url : string) : M (string * string * json) :=
  parsed <- lift (parse_owner_repo repo_url) ;;
  let owner := fst parsed in
  let repo := snd parsed in
  found <- match configured_token with
           | Some token =>
               catch (url <- get_og_via_graphql owner repo token ;;
                      ret (if truthy url then Some url else None))
                     (ret None)
           | None => ret None
           end ;;
  match found with
  | Some url => ret (owner, repo, url)
  | None => scrape owner repo
  end.

End Resolver.

(** ** The HTTP handlers *)

(** [urllib.parse.quote]: the UTF-8 bytes of the text, each kept when it is
    a letter, a digit, one of [_.-~] or a character of [safe], and written
    as a percent sign and two capital hexadecimal digits otherwise. *)
Module Quote.

Definition always_safe (c : ascii) : bool :=
  Str.isalpha_ascii c || Str.isdigit c || Str.mem c "_.-~".

Definition hex_digit (n : N) : ascii :=
  if (n <? 10)%N then ascii_of_N (48 + n) else ascii_of_N (55 + n).

Definition percent (b : ascii) : string :=
  String "%" (String (hex_digit (Str.ord b / 16))
                     (String (hex_digit (Str.ord b mod 16)) "")).

(** The UTF-8 encoding of a code point below 256. *)
Definition utf8 (c : ascii) : list ascii :=
  if (Str.ord c <? 128)%N then [c]
  else [ascii_of_N (192 + Str.ord c / 64); ascii_of_N (128 + Str.ord c mod 64)].

Definition quote_byte (safe : string) (b : ascii) : string :=
  if always_safe b || Str.mem b safe then String b "" else percent b.

Fixpoint quote (safe : string) (s : string) : string :=
  match s with
  | "" => ""
  | String c rest => Str.join (List.map (quote_byte safe) (utf8 c)) +:+ quote safe rest
  end.

End Quote.

(** Line 136: the link to [/save] that the result page shows. *)
Definition download_href (owner repo img_url : string) : string :=
  "/save?owner=" +:+ Quote.quote "/" owner +:+ "&repo=" +:+ Quote.quote "/" repo
  +:+ "&img_url=" +:+ Quote.quote ":/" img_url.

(** What a handler answers: a file of the download directory, sent under
    its own name, or a JSON document with a status. *)
Inductive http_reply : Type :=
| FileReply (name : string)
| JsonReply (status : Z) (body : json).

(** What the page template of [fetch] is given. *)
Inductive page_context : Type :=
| Shown (owner repo : string) (image_url : json) (href : string)
| Problem (error : string).

(** [try: m except Exception as e: h e] *)
Definition try_except {A : Type} (m : M A) (h : exn -> M A) : M A :=
  fun w => match m w with
           | Failed e w' => h e w'
           | other => other
           end.

Section Handlers.
Context `{PyLib} (env : Env).

(** [exn_text] is the text that the library gives its own exceptions. *)
Context (exn_text : exn -> string).

(** [str(e)]: the message, for the exceptions that carry one. *)
Definition str_exn (e : exn) : string :=
  match e with
  | ValueError msg | RuntimeError msg => msg
  | _ => exn_text e
  end.

Definition error_body (e : exn) : json := JObj [("error", JStr (str_exn e))].

Definition fetch (repo_url : string) : M page_context :=
  try_except
    (found <- resolve_og env repo_url ;;
     let owner := fst (fst found) in
     let repo := snd (fst found) in
     match snd found with
     | JStr img_url => ret (Shown owner repo (JStr img_url) (download_href owner repo img_url))
     | _ => ret (Problem "quote_from_bytes() expected bytes")
     end)
    (fun e => ret (Problem (str_exn e))).

Definition save (owner repo img_url : string) : M http_reply :=
  try_except
    (saved <- download_with_retry env img_url owner repo default_max_retries ;;
     ret (FileReply saved))
    (fun e => ret (JsonReply
                     (if Str.contains "rate-limited" (Str.lower (str_exn e))
                      then 429 else 400)%Z
                     (error_body e))).

Definition api_og (url : string) : M http_reply :=
  try_except
    (found <- resolve_og env url ;;
     ret (JsonReply 200 (JObj [("owner", JStr (fst (fst found)));
                               ("repo", JStr (snd (fst found)));
                               ("image_url", snd found)])))
    (fun e => ret (JsonReply 400 (error_body e))).

End Handlers.

(** * Vocabulary of the properties *)

(** ** Repository URLs *)

(** Characters that stay in the path that [urlparse] returns: no query,
    fragment or parameter delimiter and none of the characters it removes. *)
Definition pathy (c : ascii) : bool :=
  negb (Str.mem c (String "?" (String "#" (String ";"
         (String Str.TAB (String Str.CR (String Str.LF ""))))))).

Definition segment_char (c : ascii) : bool := pathy c && negb (Ascii.eqb c "/").

(** An owner or a repository name in a URL: one non-empty path segment. *)
Definition segment (s : string) : Prop :=
  Str.nonempty s = true /\ Str.forallb segment_char s = true.

(** A name that [sanitize] leaves as it is, as the names of GitHub are. *)
Definition safe (s : string) : Prop := Str.forallb safe_char s = true.

(** A pattern character that stands for itself. *)
Definition literal (c : ascii) : bool :=
  negb (Ascii.eqb c "*") && negb (Ascii.eqb c "?").

(** ** Runs of the downloader *)

Definition after_request (rq : Request) (w : World) : World :=
  {| files := files w; sent := rq :: sent w; slept := slept w; draws := draws w |}.

Section Rounds.
Context (env : Env).

(** The first [k] requests from [w] on are answered with 429. *)
Definition rate_limited (k : nat) (rq : Request) (w : World) : Prop :=
  forall i, (i < k)%nat ->
    exists r, net env (length (sent w) + i) rq = Answer r /\ status_code r = 429%Z.

(** The arguments of [time.sleep] over [k] rate-limited attempts in a row,
    oldest first, from back-off [b] and with [d] random draws made before. *)
Fixpoint sleeps (k : nat) (b : Q) (d : nat) : list Q :=
  match k with
  | O => []
  | S k' => (b + (0 + ((35 # 100) - 0) * random env d))%Q :: sleeps k' (b * 2)%Q (S d)
  end.

Fixpoint backoff_after (k : nat) (b : Q) : Q :=
  match k with
  | O => b
  | S k' => backoff_after k' (b * 2)%Q
  end.

(** The world after those [k] attempts. *)
Definition after_rounds (k : nat) (b : Q) (rq : Request) (w : World) : World :=
  {| files := files w;
     sent := repeat rq k ++ sent w;
     slept := rev (sleeps k b (draws w)) ++ slept w;
     draws := k + draws w |}.

End Rounds.

(** At most [budget] requests were sent between [w] and the outcome. *)
Definition requests_within {A : Type} (budget : nat) (w : World) (o : outcome A) : Prop :=
  match o with
  | Done _ w' | Failed _ w' => (length (sent w') <= length (sent w) + budget)%nat
  | Unmodelled => True
  end.

(** ** Answers of the GraphQL API *)

(** The member [key] of a JSON object, the last one when it is repeated. *)
Definition field (key : string) (d : json) : option json :=
  match d with
  | JObj fields => snd <$> List.find (fun kv => String.eqb (fst kv) key) (rev fields)
  | _ => None
  end.

(** The image field of an answer: [data.repository.openGraphImageUrl]. *)
Definition image_field (doc : json) : option json :=
  match field "data" doc with
  | Some data =>
      match field "repository" data with
      | Some repository => field "openGraphImageUrl" repository
      | None => None
      end
  | None => None
  end.

(** The ways the authenticated query fails: no answer, an error status, a
    body that is not JSON, and an image field that is missing or empty. *)
Inductive graphql_failure : Reply -> Prop :=
| network_error (e : exn) : graphql_failure (NoAnswer e)
| http_status_error (r : Response) :
    http_error (status_code r) = true -> graphql_failure (Answer r)
| undecodable_body (r : Response) :
    json_doc r = None -> graphql_failure (Answer r)
| missing_image_field (r : Response) (doc : json) :
    json_doc r = Some doc -> image_field doc = None -> graphql_failure (Answer r)
| empty_image_field (r : Response) (doc v : json) :
    json_doc r = Some doc -> image_field doc = Some v -> truthy v = false ->
    graphql_failure (Answer r).

(** What the chain of [get] calls of line 50 returns on a decoded document. *)
Definition image_lookup (doc : json) : result json :=
  rbind (dict_get doc "data" (JObj [])) (fun data =>
  rbind (dict_get (if truthy data then data else JObj []) "repository" (JObj []))
        (fun repository => dict_get repository "openGraphImageUrl" JNull)).

(** ** Vocabulary of the further properties *)

(** The outcome is one that the model covers, the files of [w] are all
    still there after it, and the only file that may be new or have a new
    content is a cache file of the owner and the repository. *)
Definition only_cache_file {A : Type} (owner repo : string) (w : World) (o : outcome A) : Prop :=
  match o with
  | Done _ w' | Failed _ w' =>
      (forall n, is_Some (files w !! n) -> is_Some (files w' !! n))
      /\ (forall n, (forall ext, n <> cache_name owner repo ext) ->
                    files w' !! n = files w !! n)
  | Unmodelled => False
  end.

(** The seconds slept in all. *)
Fixpoint total (durations : list Q) : Q :=
  match durations with
  | [] => 0
  | d :: more => d + total more
  end.

(** Line 53: the GET of a public page. *)
Definition page_request (url : string) : Request :=
  {| req_method := GET; req_url := url;
     req_headers := [("User-Agent", BROWSER_UA)]; req_json := None |}.

(** The public page of a repository, as line 68 names it. *)
Definition repo_page (owner repo : string) : string :=
  "https://github.com/" +:+ owner +:+ "/" +:+ repo.

(** A request to GitHub: the GraphQL endpoint or a page of github.com. *)
Definition to_github (rq : Request) : Prop :=
  req_url rq = GITHUB_GRAPHQL \/ Str.startswith "https://github.com/" (req_url rq) = true.

(** The Open Graph tag in its usual form, the attribute values in double
    quotes: [gap] is what stands between the last quote and the end of the
    tag. *)
Definition og_tag (u gap : string) : string :=
  "<meta property=" +:+ String Re.DQUOTE ("og:image" +:+ String Re.DQUOTE
    (" content=" +:+ String Re.DQUOTE (u +:+ String Re.DQUOTE (gap +:+ ">")))).

(** A character with no meaning for the pattern: no quote, no [>], no [=]. *)
Definition plain_char (c : ascii) : bool :=
  negb (Re.quote c) && negb (Ascii.eqb c ">") && negb (Ascii.eqb c "=").

(** [lit] stands somewhere in [s], in any letter case. *)
Fixpoint occurs (lit s : string) : bool :=
  match Re.skip_lit lit s with
  | Some _ => true
  | None => match s with
            | "" => false
            | String _ rest => occurs lit rest
            end
  end.

(** The extension that line 103 guesses from the content type, if any. *)
Definition guessed `{PyLib} (r : Response) : option string :=
  let ctype := fst (Str.break (Ascii.eqb ";")
                      (Str.lower (default "" (content_type r)))) in
  if Str.nonempty ctype then guess_extension ctype else None.

(** The text that every cache file of an owner and a name starts with. *)
Definition cache_prefix (owner repo : string) : string :=
  owner +:+ "-" +:+ repo +:+ "-opengraph.".

(** ** Auxiliary definitions of the proofs *)

Section Auxiliary.
Context `{PyLib}.
Import Str Re.

(** A character that is neither [=] nor [>]. *)
Definition no_eq_gt (c : ascii) : bool :=
  negb (Ascii.eqb c "=") && negb (Ascii.eqb c ">").

(** The loop of a group, with the text taken so far. *)
Definition group_loop (p : ascii -> bool) (rest : list item) :=
  fix more (taken s : string) : option (option string) :=
    match s with
    | String c s' =>
        if p c then
          match more (taken +:+ String c "") s' with
          | Some g => Some g
          | None => match_here rest s' (Some (taken +:+ String c ""))
          end
        else None
    | "" => None
    end.

(** The Open Graph pattern after its first and after its second run of
    characters other than [>]. *)
Definition rest2 : list item := [Lit "content="; One quote; Group not_quote; One quote].
Definition rest1 : list item :=
  [Lit "property="; One quote; Lit "og:image"; One quote; Many not_gt] ++ rest2.

(** No tail of [a], the empty one included, starts a match of [rest]
    before [T]. *)
Fixpoint tails_none (rest : list item) (a T : string) (g : option string) : Prop :=
  match a with
  | "" => True
  | String _ a' => match_here rest (a' +:+ T) g = None /\ tails_none rest a' T g
  end.

(** The text of the tag from its first attribute to the quote that opens
    the content, and from its second attribute. *)
Definition attrs1 : string :=
  "property=" +:+ String DQUOTE ("og:image" +:+ String DQUOTE
    (" content=" +:+ String DQUOTE "")).
Definition attrs2 : string := "content=" +:+ String DQUOTE "".

(** A character that is neither a dot nor a slash. *)
Definition dotless (c : ascii) : bool :=
  negb (Ascii.eqb c ".") && negb (Ascii.eqb c "/").

(** The characters that [quote] can produce. *)
Definition quoted_char (safe : string) (c : ascii) : bool :=
  Quote.always_safe c || Str.mem c safe || Ascii.eqb c "%".

(** The characters that [urlparse] removes from a URL. *)
Definition CONTROLS : string := String TAB (String CR (String LF "")).

(** [urlparse] after an [http] or [https] scheme. *)
Definition after_scheme (sch rest : string) : result Url.ParseResult :=
  let r := remove CONTROLS rest in
  let loc := fst (break (fun c => mem c "/?#") r) in
  let u := snd (break (fun c => mem c "/?#") r) in
  rbind (Url.check_brackets loc) (fun _ =>
  let u1 := fst (break (Ascii.eqb "#") u) in
  let frag := snd (break (Ascii.eqb "#") u) in
  let u2 := fst (break (Ascii.eqb "?") u1) in
  let qry := snd (break (Ascii.eqb "?") u1) in
  let pp := if mem ";" u2 then Url.strip_params u2 else (u2, "") in
  Ok {| Url.scheme := sch; Url.netloc := loc; Url.path := fst pp; Url.params := snd pp;
        Url.query := tail qry; Url.fragment := tail frag |}).

End Auxiliary.

(** ** The text of a URL *)





(** ** A library instance and sample worlds, to run the program on *)

Definition common_types : list (string * string) :=
  [("image/png", ".png"); ("image/jpeg", ".jpg"); ("image/gif", ".gif");
   ("image/webp", ".webp"); ("image/svg+xml", ".svg"); ("text/html", ".html")].

Definition sample_guess_extension (t : string) : option string :=
  snd <$> List.find (fun kv => String.eqb (fst kv) t) common_types.

Lemma sample_guess_extension_dot (t e : string) :
  sample_guess_extension t = Some e -> e <> "" -> exists e', e = String "." e'.
Proof.
  unfold sample_guess_extension. intros Hf _.
  destruct (List.find _ _) as [[k v]|] eqn:E; [|discriminate].
  injection Hf as <-. apply find_some in E as [E _].
  repeat (destruct E as [E|E]; [injection E as _ <-; eauto |]). destruct E.
Qed.

(** The common entries of the MIME table; no bracketed host is accepted. *)
#[export] Instance sample_lib : PyLib := {|
  check_bracketed_host := fun _ => false;
  guess_extension := sample_guess_extension;
  guess_extension_dot := sample_guess_extension_dot
|}.

Definition empty_world : World :=
  {| files := ∅; sent := []; slept := []; draws := 0 |}.

Definition response (status : Z) (ctype : option string) (body : list string)
    (err : option exn) : Response :=
  {| status_code := status; content_type := ctype; text := "";
     json_doc := None; chunks := body; stream_error := err |}.

Definition reply (status : Z) (ctype : option string) (body : list string)
    (err : option exn) : Reply :=
  Answer (response status ctype body err).

(** The public page of a repository, with its Open Graph tag. *)
Definition page (html : string) : Reply :=
  Answer {| status_code := 200; content_type := Some "text/html; charset=utf-8";
            text := html; json_doc := None; chunks := []; stream_error := None |}.

(** Every request gets the same reply. *)
Definition always (rp : Reply) : Env :=
  {| net := fun _ _ => rp; random := fun _ => 1 # 2; GITHUB_TOKEN := None |}.

(** The first [n] requests are answered with 429, the later ones with a
    PNG image. *)
Definition limited_then_png (n : nat) : Env :=
  {| net := fun i _ => if (i <? n)%nat then reply 429 None [] None
                       else reply 200 (Some "image/png") ["PNG"] None;
     random := fun _ => 1 # 2; GITHUB_TOKEN := None |}.

Definition image_url : string :=
  "https://opengraph.githubassets.com/1/octocat/Hello-World".

(** A token is configured, the API does not answer, the page does. *)
Definition api_down : Env :=
  {| net := fun i _ =>
       match i with
       | O => NoAnswer (RequestException "timed out")
       | _ => page ("<head><meta property='og:image' content='" +:+ image_url +:+ "'></head>")
       end;
     random := fun _ => 1 # 2;
     GITHUB_TOKEN := Some " t0ken " |}.

(** The image arrives with status 200 and its stream breaks after the
    first chunk. *)
Definition broken_stream : Env :=
  always (reply 200 (Some "image/png") ["PN"]
                (Some (RequestException "connection broken"))).

Definition statuses (env : Env) (rq : Request) (n : nat) : list (option Z) :=
  List.map (fun i => match net env i rq with
                     | Answer r => Some (status_code r)
                     | NoAnswer _ => None
                     end) (seq 0 n).

(** A token is configured and the API answers with the image field. *)
Definition api_answer : Response :=
  {| status_code := 200; content_type := Some "application/json"; text := "";
     json_doc := Some (JObj [("data", JObj [("repository",
                         JObj [("openGraphImageUrl", JStr image_url)])])]);
     chunks := []; stream_error := None |}.

Definition api_up : Env :=
  {| net := fun _ _ => Answer api_answer; random := fun _ => 1 # 2;
     GITHUB_TOKEN := Some "t0ken" |}.

(** * Properties *)

#[local] Arguments String.append !_ _ : simpl nomatch.
#[local] Arguments Ascii.eqb !_ !_ : simpl nomatch.

(** ** Strings *)

Ltac case_string_eqb E :=
  match goal with
  | |- context [String.eqb ?a ?b] => destruct (String.eqb_spec a b) as [E|_]
  end.

Module StrFacts.
Import Str.

Lemma append_assoc (a b c : string) : (a +:+ b) +:+ c = a +:+ (b +:+ c).
Proof. induction a as [|x a IH]; simpl; [done | by f_equal]. Qed.

Lemma append_empty_r (s : string) : s +:+ "" = s.
Proof. induction s as [|c s IH]; simpl; [done | by f_equal]. Qed.

Lemma forallb_app p (a b : string) :
  forallb p (a +:+ b) = forallb p a && forallb p b.
Proof. induction a as [|x a IH]; simpl; [done |]. rewrite IH. by destruct (p x). Qed.

Lemma mem_app c (a b : string) : mem c (a +:+ b) = mem c a || mem c b.
Proof. induction a as [|x a IH]; simpl; [done |]. rewrite IH. by destruct (Ascii.eqb c x). Qed.

Lemma break_app p (a : string) c b :
  forallb (fun x => negb (p x)) a = true -> p c = true ->
  break p (a +:+ String c b) = (a, String c b).
Proof.
  intros Ha Hc. induction a as [|x a IH]; simpl in *.
  - by rewrite Hc.
  - apply andb_true_iff in Ha as [Hx Ha]. apply negb_true_iff in Hx.
    rewrite Hx, (IH Ha). done.
Qed.

Lemma break_all p (a : string) :
  forallb (fun x => negb (p x)) a = true -> break p a = (a, "").
Proof.
  intros Ha. induction a as [|x a IH]; simpl in *; [done |].
  apply andb_true_iff in Ha as [Hx Ha]. apply negb_true_iff in Hx.
  by rewrite Hx, (IH Ha).
Qed.

Lemma remove_all chars (a : string) :
  forallb (fun x => negb (mem x chars)) a = true -> remove chars a = a.
Proof.
  intros Ha. induction a as [|x a IH]; simpl in *; [done |].
  apply andb_true_iff in Ha as [Hx Ha]. apply negb_true_iff in Hx.
  by rewrite Hx, (IH Ha).
Qed.

Lemma forallb_impl (p q : ascii -> bool) (a : string) :
  (forall c, p c = true -> q c = true) -> forallb p a = true -> forallb q a = true.
Proof.
  intros Hpq. induction a as [|x a IH]; simpl; [done |].
  intros [Hx Ha]%andb_true_iff. by rewrite (Hpq _ Hx), (IH Ha).
Qed.

Lemma mem_false_forallb c (a : string) :
  mem c a = false <-> forallb (fun x => negb (Ascii.eqb c x)) a = true.
Proof.
  induction a as [|x a IH]; simpl; [done |].
  rewrite orb_false_iff, andb_true_iff, negb_true_iff, IH. done.
Qed.

Lemma split_app sep (a b : string) :
  forallb (fun x => negb (Ascii.eqb x sep)) a = true ->
  split sep (a +:+ String sep b) = a :: split sep b.
Proof.
  intros Ha. induction a as [|x a IH]; simpl in *.
  - by rewrite Ascii.eqb_refl.
  - apply andb_true_iff in Ha as [Hx Ha]. apply negb_true_iff in Hx.
    by rewrite Hx, (IH Ha).
Qed.

Lemma split_all sep (a : string) :
  forallb (fun x => negb (Ascii.eqb x sep)) a = true -> split sep a = [a].
Proof.
  intros Ha. induction a as [|x a IH]; simpl in *; [done |].
  apply andb_true_iff in Ha as [Hx Ha]. apply negb_true_iff in Hx.
  by rewrite Hx, (IH Ha).
Qed.

Lemma lower_length (s : string) : String.length (lower s) = String.length s.
Proof. induction s as [|x s IH]; simpl; [done | by rewrite IH]. Qed.

Lemma lower_app (a b : string) : lower (a +:+ b) = lower a +:+ lower b.
Proof. induction a as [|x a IH]; simpl; [done | by f_equal]. Qed.

Lemma length_app (a b : string) :
  String.length (a +:+ b) = (String.length a + String.length b)%nat.
Proof. induction a as [|x a IH]; simpl; [done | by f_equal]. Qed.

Lemma nonempty_app_r (a b : string) : nonempty b = true -> nonempty (a +:+ b) = true.
Proof. by destruct a, b. Qed.

End StrFacts.

(** ** The URL parser *)

Section ParseFacts.
Context `{PyLib}.
Import Str StrFacts.

Lemma strip_params_none (s : string) :
  mem ";" s = false -> Url.strip_params s = (s, "").
Proof.
  induction s as [|c s IH]; simpl; [done |].
  intros [Hc Hs]%orb_false_iff.
  rewrite (IH Hs).
  assert (Hb : break (Ascii.eqb ";") s = (s, "")).
  { apply break_all. by apply mem_false_forallb. }
  rewrite Hc, Hb. simpl. by repeat case_match.
Qed.

Lemma pathy_not c x :
  mem x (String "?" (String "#" (String ";" (String TAB (String CR (String LF "")))))) = true ->
  pathy c = true -> Ascii.eqb x c = false.
Proof.
  intros Hx Hc. destruct (Ascii.eqb_spec x c) as [->|]; [|done].
  unfold pathy in Hc. by rewrite Hx in Hc.
Qed.

Lemma urlparse_github (p : string) :
  forallb pathy p = true ->
  Url.urlparse ("https://github.com/" +:+ p) =
    Ok {| Url.scheme := "https"; Url.netloc := "github.com"; Url.path := String "/" p;
          Url.params := ""; Url.query := ""; Url.fragment := "" |}.
Proof.
  intros Hp. unfold Url.urlparse. simpl.
  rewrite remove_all.
  2:{ eapply forallb_impl; [|exact Hp]. intros c Hc. apply negb_true_iff.
      destruct (mem c _) eqn:E; [|done].
      unfold pathy in Hc. apply negb_true_iff in Hc.
      simpl in E, Hc. repeat (apply orb_true_iff in E as [E|E]; [rewrite E, ?orb_true_r in Hc; done|]). done. }
  rewrite (break_all (Ascii.eqb "#")).
  2:{ eapply forallb_impl; [|exact Hp]. intros c Hc. apply negb_true_iff. by apply pathy_not. }
  simpl. rewrite (break_all (Ascii.eqb "?")).
  2:{ eapply forallb_impl; [|exact Hp]. intros c Hc. apply negb_true_iff. by apply pathy_not. }
  assert (Hsemi : mem ";" p = false).
  { apply mem_false_forallb. eapply forallb_impl; [|exact Hp].
    intros c Hc. apply negb_true_iff. by apply pathy_not. }
  simpl. rewrite Hsemi. reflexivity.
Qed.

Lemma segment_pathy (s : string) : forallb segment_char s = true -> forallb pathy s = true.
Proof. apply forallb_impl. by intros c [? _]%andb_true_iff. Qed.

Lemma segment_no_slash (s : string) :
  forallb segment_char s = true -> forallb (fun x => negb (Ascii.eqb x "/")) s = true.
Proof. apply forallb_impl. by intros c [_ ?]%andb_true_iff. Qed.

Lemma segments_two (owner second : string) :
  segment owner -> nonempty second = true ->
  forallb (fun x => negb (Ascii.eqb x "/")) second = true ->
  segments (String "/" (owner +:+ String "/" second)) = [owner; second].
Proof.
  intros [Ho1 Ho2] Hs1 Hs2. unfold segments. simpl.
  rewrite split_app by by apply segment_no_slash.
  rewrite split_all by done. simpl. by rewrite Ho1, Hs1.
Qed.

Lemma sub_dot_git_suffix (repo git : string) :
  lower git = ".git" -> sub_dot_git (repo +:+ git) = repo.
Proof.
  intros Hg. induction repo as [|c repo IH].
  - destruct git as [|g git]; [done |].
    cbn [String.append sub_dot_git]. by rewrite Hg.
  - cbn [String.append sub_dot_git]. rewrite IH.
    assert (Hlen : String.length (lower (String c (repo +:+ git))) = S (String.length repo + 4)).
    { rewrite lower_length. simpl. rewrite length_app, <- (lower_length git), Hg. reflexivity. }
    case_string_eqb E.
    { rewrite E in Hlen. simpl in Hlen. lia. }
    case_string_eqb E; [|done].
    exfalso. rewrite E in Hlen. simpl in Hlen.
    assert (repo = "") as -> by (destruct repo; [done | simpl in Hlen; lia]).
    simpl in E. rewrite Hg in E. discriminate.
Qed.

Lemma lower_char_LF (x : ascii) : lower_char x = LF -> x = LF.
Proof. destruct x as [[] [] [] [] [] [] [] []]; vm_compute; intros E; done. Qed.

Lemma lower_has_LF (s t : string) :
  lower s = t -> mem LF t = true -> mem LF s = true.
Proof.
  revert t. induction s as [|c s IH]; intros t <-; [done |].
  cbn [lower mem]. intros [E|E]%orb_true_iff; apply orb_true_iff.
  - left. apply Ascii.eqb_eq in E. symmetry in E. apply lower_char_LF in E. subst c.
    apply Ascii.eqb_refl.
  - right. by eapply IH.
Qed.

Lemma sub_dot_git_other (s : string) :
  endswith ".git" (lower s) = false -> mem LF s = false -> sub_dot_git s = s.
Proof.
  induction s as [|c s IH]; [done |].
  cbn [sub_dot_git lower endswith mem]. intros [E1 E2]%orb_false_iff [E3 E4]%orb_false_iff.
  rewrite String.eqb_sym, E1.
  case_string_eqb E.
  - exfalso. injection E as _ E.
    apply lower_has_LF in E; [congruence | reflexivity].
  - f_equal. by apply IH.
Qed.

Lemma lower_char_segment (x : ascii) :
  segment_char (lower_char x) = true -> segment_char x = true.
Proof. destruct x as [[] [] [] [] [] [] [] []]; vm_compute; done. Qed.

Lemma lower_segment (s : string) :
  forallb segment_char (lower s) = true -> forallb segment_char s = true.
Proof.
  induction s as [|c s IH]; [done |]. cbn [lower forallb].
  intros [Hc Hs]%andb_true_iff. by rewrite (lower_char_segment _ Hc), (IH Hs).
Qed.

Lemma parse_github_two (pre owner second : string) :
  pre = "https://" \/ pre = "" ->
  segment owner -> segment second ->
  parse_owner_repo (pre +:+ "github.com/" +:+ owner +:+ "/" +:+ second)
  = Ok (owner, sub_dot_git second).
Proof.
  intros Hpre Ho Hs. unfold parse_owner_repo.
  assert (Hw : with_scheme (pre +:+ "github.com/" +:+ owner +:+ "/" +:+ second)
               = "https://github.com/" +:+ (owner +:+ String "/" second)).
  { by destruct Hpre as [-> | ->]. }
  rewrite Hw, urlparse_github.
  2:{ rewrite forallb_app. cbn [forallb]. destruct Ho as [_ Ho], Hs as [_ Hs].
      by rewrite (segment_pathy _ Ho), (segment_pathy _ Hs). }
  cbn [rbind Url.netloc Url.path].
  rewrite segments_two; [done | done | apply Hs | apply segment_no_slash, Hs].
Qed.

End ParseFacts.

(** ** The attempts of the downloader *)

Section FetchFacts.
Context `{PyLib} (env : Env).
Import StrFacts.

Lemma world_eta (w : World) :
  {| files := files w; sent := sent w; slept := slept w; draws := draws w |} = w.
Proof. by destruct w. Qed.

Lemma attempts_rate_limited (k : nat) : forall n b url owner repo w,
  (k <= n)%nat ->
  rate_limited env k (download_request url owner repo) w ->
  attempts env n b url owner repo w =
  attempts env (n - k) (backoff_after k b) url owner repo
           (after_rounds env k b (download_request url owner repo) w).
Proof.
  induction k as [|k IH]; intros n b url owner repo w Hk Hlim.
  - rewrite Nat.sub_0_r. unfold after_rounds. cbn. by rewrite world_eta.
  - destruct n as [|n]; [lia |].
    destruct (Hlim 0%nat ltac:(lia)) as (r & Hr & Hs). rewrite Nat.add_0_r in Hr.
    cbn [attempts]. unfold bind at 1, session_request. rewrite Hr.
    rewrite Hs. cbn [Z.eqb Pos.eqb].
    unfold bind at 1, uniform. unfold bind at 1, sleep.
    cbn [files sent slept draws].
    rewrite IH; [| lia |].
    + cbn [Nat.sub backoff_after]. f_equal.
      unfold after_rounds. cbn [files sent slept draws sleeps repeat rev].
      f_equal.
      * change (download_request url owner repo :: sent w)
          with ([download_request url owner repo] ++ sent w)%list.
        rewrite (List.app_assoc _ [_]). f_equal. by rewrite <- repeat_cons.
      * by rewrite <- List.app_assoc.
      * lia.
    + intros i Hi. destruct (Hlim (S i) ltac:(lia)) as (r' & Hr' & Hs').
      exists r'. split; [|done]. cbn [sent length].
      by replace (S (length (sent w)) + i)%nat with (length (sent w) + S i)%nat by lia.
Qed.

(** The chunks land in the file one after the other; an error of the
    stream leaves what was written before it. *)
Lemma write_chunks_spec (name : string) (body : list string) (err : option exn) :
  forall (w : World) (old : string),
  files w !! name = Some old ->
  write_chunks name body err w =
  let w' := {| files := <[name := old +:+ Str.join body]> (files w);
               sent := sent w; slept := slept w; draws := draws w |} in
  match err with
  | Some e => Failed e w'
  | None => Done tt w'
  end.
Proof.
  induction body as [|chunk more IH]; intros w old Hold; cbn [write_chunks Str.join].
  - rewrite append_empty_r, insert_id, world_eta by done. by destruct err.
  - assert (Hstep : forall w1, files w1 = <[name := old +:+ chunk]> (files w) ->
              sent w1 = sent w -> slept w1 = slept w -> draws w1 = draws w ->
              write_chunks name more err w1 =
              let w' := {| files := <[name := old +:+ chunk +:+ Str.join more]> (files w);
                           sent := sent w; slept := slept w; draws := draws w |} in
              match err with Some e => Failed e w' | None => Done tt w' end).
    { intros w1 Hf Hs Hsl Hd. rewrite (IH w1 (old +:+ chunk)).
      - rewrite Hf, Hs, Hsl, Hd, insert_insert_eq, append_assoc. done.
      - rewrite Hf. apply lookup_insert_eq. }
    unfold bind. destruct chunk as [|c chunk]; cbn [Str.nonempty].
    + unfold ret. apply Hstep; try done.
      by rewrite append_empty_r, insert_id.
    + unfold file_write. apply Hstep; try done. cbn [files].
      apply map_eq. intros k. destruct (decide (k = name)) as [->|Hne].
      * by rewrite lookup_alter_eq, Hold, lookup_insert_eq.
      * by rewrite lookup_alter_ne, lookup_insert_ne.
Qed.

(** One attempt whose reply is neither 429 nor an HTTP error *)
Lemma attempts_reply (n : nat) (b : Q) (url owner repo : string) (w : World) (r : Response) :
  net env (length (sent w)) (download_request url owner repo) = Answer r ->
  status_code r <> 429%Z ->
  http_error (status_code r) = false ->
  let name := cache_name owner repo (extension url r) in
  let w' := {| files := <[name := Str.join (chunks r)]> (files w);
               sent := download_request url owner repo :: sent w;
               slept := slept w; draws := draws w |} in
  attempts env (S n) b url owner repo w =
  match stream_error r with
  | Some e => Failed e w'
  | None => Done name w'
  end.
Proof.
  intros Hr Hs Herr name w'. cbn [attempts].
  unfold bind at 1, session_request. rewrite Hr.
  apply Z.eqb_neq in Hs. rewrite Hs.
  unfold bind at 1, raise_for_status. rewrite Herr.
  unfold ret at 1. unfold bind at 1, open_wb. cbn [files sent slept draws].
  unfold bind.
  rewrite (write_chunks_spec _ _ _ _ ""); [| apply lookup_insert_eq].
  cbn [files sent slept draws]. rewrite insert_insert_eq. cbn [String.append].
  fold name. by destruct (stream_error r).
Qed.

Lemma attempts_http_error (n : nat) (b : Q) (url owner repo : string) (w : World) (r : Response) :
  net env (length (sent w)) (download_request url owner repo) = Answer r ->
  status_code r <> 429%Z ->
  http_error (status_code r) = true ->
  attempts env (S n) b url owner repo w =
  Failed (HTTPError (status_code r))
         {| files := files w; sent := download_request url owner repo :: sent w;
            slept := slept w; draws := draws w |}.
Proof.
  intros Hr Hs Herr. cbn [attempts].
  unfold bind at 1, session_request. rewrite Hr.
  apply Z.eqb_neq in Hs. rewrite Hs.
  unfold bind at 1, raise_for_status. by rewrite Herr.
Qed.

Lemma download_miss (url owner repo : string) (max_retries : Z) (w : World) :
  find_cached owner repo w = Done None w ->
  download_with_retry env url owner repo max_retries w =
  attempts env (Z.to_nat max_retries) 1 url owner repo w.
Proof. intros Hm. unfold download_with_retry, bind. by rewrite Hm. Qed.

Lemma download_hit (url owner repo p : string) (max_retries : Z) (w : World) :
  find_cached owner repo w = Done (Some p) w ->
  download_with_retry env url owner repo max_retries w = Done p w.
Proof. intros Hm. unfold download_with_retry, bind. by rewrite Hm. Qed.

Lemma attempts_no_answer (n : nat) (b : Q) (url owner repo : string) (w : World) (e : exn) :
  net env (length (sent w)) (download_request url owner repo) = NoAnswer e ->
  attempts env (S n) b url owner repo w =
  Failed e {| files := files w; sent := download_request url owner repo :: sent w;
              slept := slept w; draws := draws w |}.
Proof.
  intros Hr. cbn [attempts]. unfold bind at 1, session_request. by rewrite Hr.
Qed.

Lemma attempts_requests (n : nat) : forall b url owner repo w,
  requests_within n w (attempts env n b url owner repo w).
Proof.
  induction n as [|n IH]; intros b url owner repo w.
  - cbn. lia.
  - destruct (net env (length (sent w)) (download_request url owner repo)) as [r|e] eqn:Hr.
    2:{ rewrite (attempts_no_answer _ _ _ _ _ _ e Hr). cbn. lia. }
    destruct (Z.eq_dec (status_code r) 429%Z) as [Hs|Hs].
    + rewrite (attempts_rate_limited 1); [| lia |].
      * cbn [Nat.sub]. rewrite Nat.sub_0_r.
        specialize (IH (backoff_after 1 b) url owner repo
                       (after_rounds env 1 b (download_request url owner repo) w)).
        destruct (attempts env n _ _ _ _ _); cbn in *; lia.
      * intros i Hi. exists r. by replace i with 0%nat by lia; rewrite Nat.add_0_r.
    + destruct (http_error (status_code r)) eqn:Herr.
      * rewrite (attempts_http_error _ _ _ _ _ _ r Hr Hs Herr). cbn. lia.
      * rewrite (attempts_reply _ _ _ _ _ _ r Hr Hs Herr).
        destruct (stream_error r); cbn; lia.
Qed.

Lemma backoff_after_pow (k : nat) : forall b,
  (backoff_after k b == b * inject_Z (2 ^ Z.of_nat k))%Q.
Proof.
  induction k as [|k IH]; intros b.
  - cbn [backoff_after]. change (inject_Z (2 ^ Z.of_nat 0)) with 1%Q. ring.
  - cbn [backoff_after]. rewrite IH, Nat2Z.inj_succ, Z.pow_succ_r by lia.
    rewrite inject_Z_mult. change (inject_Z 2) with 2%Q. ring.
Qed.

Lemma sleeps_length (k : nat) : forall b d, length (sleeps env k b d) = k.
Proof. induction k as [|k IH]; intros b d; cbn; [done | by rewrite IH]. Qed.

Lemma sleeps_spec (k : nat) :
  (forall n, 0 <= random env n /\ random env n < 1)%Q ->
  forall b d (i : nat) (x : Q),
  sleeps env k b d !! i = Some x ->
  exists jitter : Q,
    (0 <= jitter /\ jitter <= 35 # 100)%Q /\
    (x == b * inject_Z (2 ^ Z.of_nat i) + jitter)%Q.
Proof.
  intros Hrand. induction k as [|k IH]; intros b d i x Hx; [done |].
  cbn [sleeps] in Hx. rewrite lookup_cons in Hx. destruct i as [|i].
  - injection Hx as <-. exists (0 + ((35 # 100) - 0) * random env d)%Q.
    destruct (Hrand d) as [H0 H1]. split; [split; lra |].
    change (inject_Z (2 ^ Z.of_nat 0)) with 1%Q. ring.
  - destruct (IH _ _ _ _ Hx) as (j & Hj & Hxj). exists j. split; [done |].
    rewrite Hxj, Nat2Z.inj_succ, Z.pow_succ_r by lia.
    rewrite inject_Z_mult. change (inject_Z 2) with 2%Q. ring.
Qed.

End FetchFacts.

(** ** Globbing and the cache *)

Module PathFacts.
Import Str.

Lemma fnmatch_star (name : string) : Path.fnmatch "*" name = true.
Proof. induction name as [|c name IH]; [done |]. cbn in *. by rewrite IH. Qed.

Lemma fnmatch_literal (a pat name : string) :
  forallb literal a = true ->
  Path.fnmatch (a +:+ pat) (a +:+ name) = Path.fnmatch pat name.
Proof.
  induction a as [|c a IH]; [done |]. cbn [forallb]. intros [Hc Ha]%andb_true_iff.
  apply andb_true_iff in Hc as [H1%negb_true_iff H2%negb_true_iff].
  cbn [String.append]. rewrite <- (IH Ha).
  destruct c as [[] [] [] [] [] [] [] []]; try discriminate; cbn [Path.fnmatch];
    by rewrite Ascii.eqb_refl.
Qed.

Lemma contains_two_stars (a : string) :
  mem "*" a = false -> contains "**" (a +:+ "*") = false.
Proof.
  induction a as [|c a IH]; [done |]. cbn [mem]. intros [Hc Ha]%orb_false_iff.
  cbn [String.append contains startswith]. by rewrite Hc, (IH Ha).
Qed.

Lemma singleton_filter (f : string -> bool) (l : list string) (x : string) :
  NoDup l -> In x l -> f x = true ->
  (forall y, In y l -> f y = true -> y = x) ->
  List.filter f l = [x].
Proof.
  intros Hnd Hin Hfx Huniq.
  assert (Hall : forall y, In y (List.filter f l) -> y = x).
  { intros y [Hy Hfy]%filter_In. by apply Huniq. }
  assert (Hx : In x (List.filter f l)) by by apply filter_In.
  assert (Hnd' : List.NoDup (List.filter f l))
    by by apply List.NoDup_filter, NoDup_ListNoDup.
  destruct (List.filter f l) as [|a [|b rest]]; [done | |].
  - by rewrite (Hall a (or_introl eq_refl)).
  - exfalso. inversion Hnd' as [|? ? Hnotin _]; subst. apply Hnotin.
    rewrite (Hall a), <- (Hall b); cbn; auto.
Qed.

(** A name written into a directory in which nothing matched is the one
    match afterwards, whatever the directory order. *)
Lemma glob_after_write (dir : gmap string string) (pat name content : string) :
  Path.glob dir pat = Some [] ->
  Path.fnmatch pat name = true ->
  Path.glob (<[name := content]> dir) pat = Some [name].
Proof.
  unfold Path.glob. destruct (Path.plain_pattern pat); [|done].
  intros [= Hnone] Hmatch. f_equal.
  apply singleton_filter; [apply NoDup_fst_map_to_list | | done |].
  - apply in_map_iff. exists (name, content). split; [done |].
    apply list_elem_of_In, elem_of_map_to_list, lookup_insert_eq.
  - intros y [[k v] [<- Hkv]]%in_map_iff Hy. cbn in *.
    apply list_elem_of_In, elem_of_map_to_list in Hkv.
    destruct (decide (k = name)) as [|Hne]; [done |].
    rewrite lookup_insert_ne in Hkv by done.
    exfalso. assert (Hin : In k (List.filter (Path.fnmatch pat) (List.map fst (map_to_list dir)))).
    { apply filter_In. split; [|done]. apply in_map_iff. exists (k, v).
      split; [done |]. by apply list_elem_of_In, elem_of_map_to_list. }
    by rewrite Hnone in Hin.
Qed.

Lemma from_last_dot_dot (s t : string) :
  Path.from_last_dot s = Some t -> exists t', t = String "." t'.
Proof.
  induction s as [|c s IH]; [done |]. cbn [Path.from_last_dot].
  destruct (Path.from_last_dot s) as [t0|].
  - intros [= <-]. by apply IH.
  - destruct (Ascii.eqb_spec c ".") as [->|]; [|done]. intros [= <-]. eauto.
Qed.

Lemma suffix_dot (p : string) :
  Path.suffix p <> "" -> exists t', Path.suffix p = String "." t'.
Proof.
  unfold Path.suffix. destruct (Path.name p) as [|c rest]; [done |].
  destruct (Path.from_last_dot rest) as [t|] eqn:E; [|done].
  destruct (from_last_dot_dot _ _ E) as [t' ->].
  destruct t'; [done | eauto].
Qed.

End PathFacts.

Section CacheFacts.
Context `{PyLib}.
Import Str StrFacts PathFacts.

Lemma sanitize_app (a b : string) : sanitize (a +:+ b) = sanitize a +:+ sanitize b.
Proof. unfold sanitize. induction a as [|c a IH]; cbn; [done | by f_equal]. Qed.

Lemma sanitize_safe (a : string) : safe a -> sanitize a = a.
Proof.
  unfold safe, sanitize. induction a as [|c a IH]; [done |]. cbn [forallb Str.map].
  intros [Hc Ha]%andb_true_iff. by rewrite Hc, (IH Ha).
Qed.

Lemma safe_char_not (c x : ascii) :
  safe_char x = false -> safe_char c = true -> Ascii.eqb x c = false.
Proof. intros Hx Hc. destruct (Ascii.eqb_spec x c) as [->|]; [congruence | done]. Qed.

Lemma extension_dot (url : string) (r : Response) :
  extension url r <> "" -> exists e', extension url r = String "." e'.
Proof.
  unfold extension.
  set (ctype := fst (break (Ascii.eqb ";") (lower (default "" (content_type r))))).
  assert (Hrest : (if existsb (fun sfx => endswith sfx (lower url)) image_suffixes
                   then Path.suffix url else ".jpg") <> "" ->
                  exists e', (if existsb (fun sfx => endswith sfx (lower url)) image_suffixes
                              then Path.suffix url else ".jpg") = String "." e').
  { destruct (existsb _ _); [apply suffix_dot | eauto]. }
  destruct (if nonempty ctype then guess_extension ctype else None) as [[|c e]|] eqn:Eg;
    cbn [default nonempty]; try exact Hrest.
  intros _. destruct (nonempty ctype); [|done].
  by eapply guess_extension_dot.
Qed.

Lemma cache_name_matches (owner repo ext : string) :
  safe owner -> safe repo -> ext <> "" -> (exists e', ext = String "." e') ->
  Path.plain_pattern (cache_pattern owner repo) = true
  /\ Path.fnmatch (cache_pattern owner repo) (cache_name owner repo ext) = true.
Proof.
  intros Ho Hr _ [e' ->].
  assert (Hpre : safe (owner +:+ "-" +:+ repo +:+ "-opengraph.")).
  { unfold safe. rewrite forallb_app. cbn [String.append forallb].
    rewrite forallb_app. by rewrite Ho, Hr. }
  assert (Hpat : cache_pattern owner repo = (owner +:+ "-" +:+ repo +:+ "-opengraph.") +:+ "*").
  { unfold cache_pattern. by rewrite !append_assoc. }
  assert (Hname : cache_name owner repo (String "." e')
                  = (owner +:+ "-" +:+ repo +:+ "-opengraph.") +:+ sanitize e').
  { unfold cache_name.
    replace (owner +:+ "-" +:+ repo +:+ "-opengraph" +:+ String "." e')
      with ((owner +:+ "-" +:+ repo +:+ "-opengraph.") +:+ e') by by rewrite !append_assoc.
    by rewrite sanitize_app, (sanitize_safe _ Hpre). }
  split.
  - rewrite Hpat. unfold Path.plain_pattern.
    rewrite contains_two_stars.
    2:{ apply mem_false_forallb. eapply forallb_impl; [|exact Hpre].
        intros c Hc. apply negb_true_iff. by apply safe_char_not. }
    assert (Hno : forall x, safe_char x = false -> x <> "*"%char ->
                    mem x ((owner +:+ "-" +:+ repo +:+ "-opengraph.") +:+ "*") = false).
    { intros x Hx Hstar. apply mem_false_forallb. rewrite forallb_app.
      apply andb_true_iff. split.
      - eapply forallb_impl; [|exact Hpre]. intros c Hc. apply negb_true_iff.
        by apply safe_char_not.
      - cbn. destruct (Ascii.eqb_spec x "*"); [done | done]. }
    by rewrite !Hno.
  - rewrite Hpat, Hname, fnmatch_literal; [apply fnmatch_star |].
    eapply forallb_impl; [|exact Hpre]. intros c Hc. unfold literal.
    by rewrite !(Ascii.eqb_sym c), !safe_char_not.
Qed.

Lemma find_cached_miss_glob (owner repo : string) (w : World) :
  find_cached owner repo w = Done None w ->
  Path.glob (files w) (cache_pattern owner repo) = Some [].
Proof.
  unfold find_cached. by destruct (Path.glob _ _) as [[|p l]|].
Qed.

(** A cache file written after a miss is what the next lookup finds. *)
Lemma find_cached_after_write (owner repo ext content : string) (w w' : World) :
  safe owner -> safe repo -> ext <> "" -> (exists e', ext = String "." e') ->
  find_cached owner repo w = Done None w ->
  files w' = <[cache_name owner repo ext := content]> (files w) ->
  find_cached owner repo w' = Done (Some (cache_name owner repo ext)) w'.
Proof.
  intros Ho Hr Hne Hdot Hmiss Hfiles.
  destruct (cache_name_matches owner repo ext Ho Hr Hne Hdot) as [_ Hmatch].
  unfold find_cached. rewrite Hfiles.
  by rewrite (glob_after_write _ _ _ _ (find_cached_miss_glob _ _ _ Hmiss) Hmatch).
Qed.

End CacheFacts.
Section DownloadFacts.
Context `{PyLib} (env : Env).

Lemma after_rounds_sent (k : nat) (b : Q) (rq : Request) (w : World) :
  length (sent (after_rounds env k b rq w)) = (length (sent w) + k)%nat.
Proof. cbn. rewrite length_app, repeat_length. lia. Qed.

(** After a cache miss and [k] rate-limited attempts, the attempt that is
    answered with another status decides the call. *)
Lemma download_reply (url owner repo : string) (max_retries : Z) (w : World)
    (k : nat) (r : Response) :
  find_cached owner repo w = Done None w ->
  (k < Z.to_nat max_retries)%nat ->
  rate_limited env k (download_request url owner repo) w ->
  net env (length (sent w) + k) (download_request url owner repo) = Answer r ->
  status_code r <> 429%Z ->
  let w1 := after_rounds env k 1 (download_request url owner repo) w in
  let name := cache_name owner repo (extension url r) in
  let w2 := {| files := <[name := Str.join (chunks r)]> (files w);
               sent := download_request url owner repo :: sent w1;
               slept := slept w1; draws := draws w1 |} in
  download_with_retry env url owner repo max_retries w =
  if http_error (status_code r)
  then Failed (HTTPError (status_code r))
              {| files := files w; sent := download_request url owner repo :: sent w1;
                 slept := slept w1; draws := draws w1 |}
  else match stream_error r with
       | Some e => Failed e w2
       | None => Done name w2
       end.
Proof.
  intros Hmiss Hk Hlim Hr Hs w1 name w2.
  rewrite (download_miss env _ _ _ _ _ Hmiss).
  rewrite (attempts_rate_limited env k) by (done || lia). fold w1.
  destruct (Z.to_nat max_retries - k)%nat as [|m] eqn:Hm; [lia |].
  assert (Hr1 : net env (length (sent w1)) (download_request url owner repo) = Answer r).
  { unfold w1. by rewrite after_rounds_sent. }
  destruct (http_error (status_code r)) eqn:Herr.
  - by rewrite (attempts_http_error env _ _ _ _ _ _ r Hr1 Hs Herr).
  - by rewrite (attempts_reply env _ _ _ _ _ _ r Hr1 Hs Herr).
Qed.

Lemma download_exhausted (url owner repo : string) (max_retries : Z) (w : World) :
  find_cached owner repo w = Done None w ->
  rate_limited env (Z.to_nat max_retries) (download_request url owner repo) w ->
  download_with_retry env url owner repo max_retries w =
  Failed (RuntimeError rate_limited_message)
         (after_rounds env (Z.to_nat max_retries) 1 (download_request url owner repo) w).
Proof.
  intros Hmiss Hlim. rewrite (download_miss env _ _ _ _ _ Hmiss).
  rewrite (attempts_rate_limited env (Z.to_nat max_retries)) by done.
  by rewrite Nat.sub_diag.
Qed.

End DownloadFacts.

(** ** The resolver *)

Section ResolveFacts.
Context `{PyLib} (env : Env).

Lemma dict_get_field (d : json) (key : string) (dflt : json) :
  dict_get d key dflt =
  match d with
  | JObj _ => Ok (default dflt (field key d))
  | _ => Raise AttributeError
  end.
Proof. by destruct d. Qed.

Lemma field_falsy (key : string) (d : json) : truthy d = false -> field key d = None.
Proof. destruct d as [| | | | |[|kv fields]]; done. Qed.

Lemma image_lookup_truthy (doc v : json) :
  image_lookup doc = Ok v -> truthy v = true -> image_field doc = Some v.
Proof.
  unfold image_lookup, image_field. rewrite dict_get_field.
  destruct doc; try done. cbn [rbind].
  destruct (field "data" _) as [data|]; cbn [default from_option id].
  2:{ cbn. intros E; by injection E as <-. }
  destruct (truthy data) eqn:Ht.
  2:{ cbn. intros E; by injection E as <-. }
  rewrite dict_get_field. destruct data; try done. cbn [rbind].
  destruct (field "repository" _) as [rp|]; cbn [default from_option id].
  2:{ cbn. intros E; by injection E as <-. }
  rewrite dict_get_field. destruct rp; try done.
  destruct (field "openGraphImageUrl" _) as [u|]; cbn [default from_option id];
    intros E; by injection E as <-.
Qed.

Lemma get_og_via_graphql_answer (owner repo token : string) (w : World) (r : Response) :
  net env (length (sent w)) (graphql_request owner repo token) = Answer r ->
  get_og_via_graphql env owner repo token w =
  let w1 := after_request (graphql_request owner repo token) w in
  if http_error (status_code r) then Failed (HTTPError (status_code r)) w1
  else match json_doc r with
       | None => Failed JSONDecodeError w1
       | Some doc => match image_lookup doc with
                     | Ok v => Done v w1
                     | Raise e => Failed e w1
                     end
       end.
Proof.
  intros Hr. unfold get_og_via_graphql. unfold bind at 1, session_request. rewrite Hr.
  fold (after_request (graphql_request owner repo token) w). cbn zeta.
  unfold bind at 1, raise_for_status.
  destruct (http_error (status_code r)); [done |]. unfold ret at 1.
  unfold bind at 1. destruct (json_doc r) as [doc|]; [|done]. unfold ret at 1.
  unfold image_lookup, bind.
  destruct (dict_get doc "data" (JObj [])) as [data|e]; cbn [lift rbind]; [|done].
  unfold ret at 1.
  destruct (dict_get (if truthy data then data else JObj []) "repository" (JObj []))
    as [rp|e]; cbn [lift rbind]; [|done].
  unfold ret at 1. by destruct (dict_get rp "openGraphImageUrl" JNull).
Qed.

Lemma get_og_via_graphql_failure (owner repo token : string) (w : World) :
  graphql_failure (net env (length (sent w)) (graphql_request owner repo token)) ->
  catch (bind (get_og_via_graphql env owner repo token)
              (fun url => ret (if truthy url then Some url else None)))
        (ret None) w
  = Done None (after_request (graphql_request owner repo token) w).
Proof.
  intros Hfail. unfold catch, bind at 1.
  destruct (net env _ _) as [r|e] eqn:Hr.
  2:{ unfold get_og_via_graphql. unfold bind at 1, session_request. by rewrite Hr. }
  rewrite (get_og_via_graphql_answer _ _ _ _ r Hr). cbn zeta.
  destruct (http_error (status_code r)) eqn:Herr; [done |].
  destruct (json_doc r) as [doc|] eqn:Hd; [|done].
  destruct (image_lookup doc) as [v|e] eqn:Hl; [|done].
  unfold ret. destruct (truthy v) eqn:Hv; [|done].
  pose proof (image_lookup_truthy doc v Hl Hv) as Hf.
  inversion Hfail; congruence.
Qed.

End ResolveFacts.

(** ** The text of a URL *)

Module TailFacts.
Import Str StrFacts.

Lemma break_app_pass (p : ascii -> bool) (a b : string) :
  forallb (fun x => negb (p x)) a = true ->
  break p (a +:+ b) = (a +:+ fst (break p b), snd (break p b)).
Proof.
  intros Ha. induction a as [|x a IH]; cbn [String.append].
  - by destruct (break p b).
  - cbn [forallb] in Ha. apply andb_true_iff in Ha as [Hx Ha].
    apply negb_true_iff in Hx. cbn [break]. rewrite Hx, (IH Ha). reflexivity.
Qed.

Lemma break_parts (p : ascii -> bool) (s : string) :
  s = fst (break p s) +:+ snd (break p s)
  /\ forallb (fun x => negb (p x)) (fst (break p s)) = true
  /\ (snd (break p s) = ""
      \/ exists c rest, snd (break p s) = String c rest /\ p c = true).
Proof.
  induction s as [|x s (IH1 & IH2 & IH3)]; cbn [break].
  - split; [done |]. split; [done | by left].
  - destruct (p x) eqn:Hx.
    + split; [done |]. split; [done |]. right. by exists x, s.
    + destruct (break p s) as [a b]. cbn [fst snd] in *.
      split; [cbn [String.append]; by f_equal |].
      split; [cbn [forallb]; by rewrite Hx, IH2 | done].
Qed.

Lemma remove_app (chars a b : string) :
  remove chars (a +:+ b) = remove chars a +:+ remove chars b.
Proof.
  induction a as [|x a IH]; cbn [String.append remove]; [done |].
  rewrite IH. by destruct (mem x chars).
Qed.

Lemma mem_remove (c : ascii) (chars s : string) :
  mem c s = false -> mem c (remove chars s) = false.
Proof.
  induction s as [|x s IH]; [done |]. cbn [mem remove].
  intros [Hx Hs]%orb_false_iff. destruct (mem x chars); cbn [mem]; rewrite ?Hx; by apply IH.
Qed.

Lemma startswith_prefix (p s : string) :
  startswith p s = true -> exists rest, s = p +:+ rest.
Proof.
  revert s. induction p as [|a p IH]; intros s; [by exists s |].
  destruct s as [|b s]; [done |]. cbn [startswith].
  intros [Hab Hs]%andb_true_iff. apply Ascii.eqb_eq in Hab as <-.
  destruct (IH s Hs) as (rest & ->). by exists rest.
Qed.

Lemma startswith_tail (p s t : string) (c : ascii) :
  mem c p = false -> startswith p (s +:+ String c t) = startswith p s.
Proof.
  revert s. induction p as [|a p IH]; intros s Hc; [by destruct s |].
  cbn [mem] in Hc. apply orb_false_iff in Hc as [Hca Hc].
  destruct s as [|b s]; cbn [String.append startswith].
  - rewrite Ascii.eqb_sym in Hca. by rewrite Hca.
  - by rewrite (IH s Hc).
Qed.

(** The URL that the parser is given starts with one of the two schemes,
    and a tail that starts with [c] stays at its end. *)
Lemma with_scheme_tail (url t : string) (c : ascii) :
  mem c "https://" = false ->
  exists sch rest,
    (sch = "http" \/ sch = "https")
    /\ with_scheme url = sch +:+ "://" +:+ rest
    /\ with_scheme (url +:+ String c t) = sch +:+ "://" +:+ (rest +:+ String c t)
    /\ (forall x, mem x url = false -> mem x rest = false).
Proof.
  intros Hc.
  assert (Hc' : mem c "http://" = false).
  { cbn [mem] in *. repeat (apply orb_false_iff in Hc as [? Hc]).
    by repeat (apply orb_false_iff; split). }
  unfold with_scheme. rewrite !startswith_tail by done.
  destruct (startswith "http://" url) eqn:H1; cbn [orb].
  - destruct (startswith_prefix _ _ H1) as (rest & ->).
    exists "http", rest. split; [by left |]. split; [done |].
    split; [by rewrite append_assoc |].
    intros x. rewrite mem_app. by intros [_ ?]%orb_false_iff.
  - destruct (startswith "https://" url) eqn:H2.
    + destruct (startswith_prefix _ _ H2) as (rest & ->).
      exists "https", rest. split; [by right |]. split; [done |].
      split; [by rewrite append_assoc |].
      intros x. rewrite mem_app. by intros [_ ?]%orb_false_iff.
    + exists "https", url. split; [by right |]. done.
Qed.

Section Parse.
Context `{PyLib}.

Lemma urlparse_after_scheme (sch rest : string) :
  sch = "http" \/ sch = "https" ->
  Url.urlparse (sch +:+ "://" +:+ rest) = after_scheme sch rest.
Proof.
  intros [-> | ->]; unfold Url.urlparse, after_scheme; fold CONTROLS.
  - change (lstrip Url.c0_or_space ("http" +:+ "://" +:+ rest)) with ("http://" +:+ rest).
    rewrite remove_app. change (remove CONTROLS "http://") with "http://".
    change (Url.split_scheme ("http://" +:+ remove CONTROLS rest))
      with ("http", "//" +:+ remove CONTROLS rest).
    unfold Url.split_netloc. cbn [String.append].
    destruct (break _ (remove CONTROLS rest)) as [loc u]. cbn [fst snd].
    destruct (Url.check_brackets loc); [|done]. cbn [rbind].
    destruct (break (Ascii.eqb "#") u) as [u1 frag]. cbn [fst snd].
    destruct (break (Ascii.eqb "?") u1) as [u2 qry]. cbn [fst snd].
    change (bool_decide ("http" ∈ Url.uses_params)) with true. cbn [andb].
    by destruct (if mem ";" u2 then _ else _).
  - change (lstrip Url.c0_or_space ("https" +:+ "://" +:+ rest)) with ("https://" +:+ rest).
    rewrite remove_app. change (remove CONTROLS "https://") with "https://".
    change (Url.split_scheme ("https://" +:+ remove CONTROLS rest))
      with ("https", "//" +:+ remove CONTROLS rest).
    unfold Url.split_netloc. cbn [String.append].
    destruct (break _ (remove CONTROLS rest)) as [loc u]. cbn [fst snd].
    destruct (Url.check_brackets loc); [|done]. cbn [rbind].
    destruct (break (Ascii.eqb "#") u) as [u1 frag]. cbn [fst snd].
    destruct (break (Ascii.eqb "?") u1) as [u2 qry]. cbn [fst snd].
    change (bool_decide ("https" ∈ Url.uses_params)) with true. cbn [andb].
    by destruct (if mem ";" u2 then _ else _).
Qed.

End Parse.

End TailFacts.

Section ReadFacts.
Context `{PyLib}.
Import Str StrFacts TailFacts.













End ReadFacts.

Section CoverFacts.
Import Str StrFacts TailFacts.



End CoverFacts.

Section BracketFacts.
Context `{PyLib}.
Import Str StrFacts.

Lemma rpartition_at_none (s : string) : mem "@" s = false -> Url.rpartition_at s = s.
Proof.
  destruct s as [|c s]; [done |]. cbn [mem Url.rpartition_at].
  intros [Hc Hs]%orb_false_iff. rewrite Hs. rewrite Ascii.eqb_sym in Hc. by rewrite Hc.
Qed.

(** Text before the opening bracket of the host is refused, whatever the
    bracketed host is. *)
Lemma text_before_bracket_rejected (a b : string) :
  a <> "" -> mem "[" a = false -> mem "@" (a +:+ String "[" b) = false ->
  Url.check_brackets (a +:+ String "[" b) = Raise (ValueError "Invalid IPv6 URL").
Proof.
  intros Ha Hopen Hat. unfold Url.check_brackets.
  assert (Ho : mem "[" (a +:+ String "[" b) = true).
  { rewrite mem_app. cbn [mem]. change (Ascii.eqb "[" "[") with true.
    by rewrite orb_true_r. }
  rewrite Ho. destruct (mem "]" (a +:+ String "[" b)); cbn [negb andb orb]; [|done].
  unfold Url.check_bracketed_netloc. rewrite (rpartition_at_none _ Hat).
  rewrite (break_app (Ascii.eqb "[") a "[" b); [| by apply mem_false_forallb | done].
  by destruct a.
Qed.

End BracketFacts.

(** ** Sample worlds *)

Lemma limited_then_png_rate_limited (n k : nat) (rq : Request) :
  (k <= n)%nat -> rate_limited (limited_then_png n) k rq empty_world.
Proof.
  intros Hk i Hi. exists (response 429 None [] None). split; [|done].
  unfold limited_then_png, reply. cbn [net empty_world sent length Nat.add].
  destruct (Nat.ltb_spec i n); [done | lia].
Qed.

Lemma empty_world_miss (owner repo : string) :
  Path.plain_pattern (cache_pattern owner repo) = true ->
  find_cached owner repo empty_world = Done None empty_world.
Proof.
  intros Hp. unfold find_cached, Path.glob. rewrite Hp.
  unfold empty_world. cbn [files]. by rewrite map_to_list_empty.
Qed.



(** * The claims *)

(** ** [parse_owner_repo] *)



(** C5.  For an owner and a repository name that are each one path
    segment, the URL https://github.com/owner/repo, with or without the
    scheme, parses to the pair (owner, repo): with a trailing .git in any
    letter case, which is stripped, and without one; the letter case of
    both names is kept. *)
Theorem parse_owner_repo_valid `{PyLib} (owner repo pre : string) :
  segment owner -> segment repo -> pre = "https://" \/ pre = "" ->
  (forall git, Str.lower git = ".git" ->
     parse_owner_repo (pre +:+ "github.com/" +:+ owner +:+ "/" +:+ repo +:+ git)
     = Ok (owner, repo))
  /\ (Str.endswith ".git" (Str.lower repo) = false ->
      parse_owner_repo (pre +:+ "github.com/" +:+ owner +:+ "/" +:+ repo)
      = Ok (owner, repo)).
Proof.
  intros Ho Hr Hpre. split.
  - intros git Hg. rewrite parse_github_two; [|done|done|].
    + by rewrite sub_dot_git_suffix.
    + destruct Hr as [Hr1 Hr2]. split.
      * destruct repo; [done | reflexivity].
      * rewrite StrFacts.forallb_app, Hr2. apply lower_segment. by rewrite Hg.
  - intros Hend. rewrite parse_github_two by done.
    rewrite sub_dot_git_other; [done | done |].
    destruct Hr as [_ Hr]. apply StrFacts.mem_false_forallb.
    eapply StrFacts.forallb_impl; [|exact Hr].
    intros c [Hc _]%andb_true_iff. apply negb_true_iff. by apply pathy_not.
Qed.

Lemma parse_owner_repo_valid_witness :
  parse_owner_repo "github.com/octocat/Hello-World.GIT" = Ok ("octocat", "Hello-World")
  /\ parse_owner_repo "https://github.com/octocat/Hello-World" = Ok ("octocat", "Hello-World").
Proof.
  assert (Ho : segment "octocat") by (split; vm_compute; reflexivity).
  assert (Hr : segment "Hello-World") by (split; vm_compute; reflexivity).
  split.
  - exact (proj1 (parse_owner_repo_valid "octocat" "Hello-World" ""
                    Ho Hr (or_intror eq_refl)) ".GIT" eq_refl).
  - exact (proj2 (parse_owner_repo_valid "octocat" "Hello-World" "https://"
                    Ho Hr (or_introl eq_refl)) eq_refl).
Defined.



(** ** [resolve_og] *)

(** C6.  With a token configured and a URL that parses, a failure of the
    GraphQL query (no answer, an error status, a body that is not JSON, a
    missing or empty image field) is swallowed: [resolve_og] goes on as the
    scrape of the public page does after that one request, so it succeeds
    whenever the scrape succeeds. *)
Theorem graphql_failure_falls_through `{PyLib} (env : Env)
    (url owner repo token : string) (w : World) :
  parse_owner_repo url = Ok (owner, repo) ->
  configured_token env = Some token ->
  graphql_failure (net env (length (sent w)) (graphql_request owner repo token)) ->
  let w1 := after_request (graphql_request owner repo token) w in
  resolve_og env url w = scrape env owner repo w1
  /\ (forall found w2, scrape env owner repo w1 = Done found w2 ->
        resolve_og env url w = Done found w2).
Proof.
  intros Hparse Htoken Hfail w1.
  assert (Heq : resolve_og env url w = scrape env owner repo w1).
  { unfold resolve_og. rewrite Hparse, Htoken. cbn [lift].
    unfold bind at 1. unfold ret at 1. cbn [fst snd].
    unfold bind at 1.
    by rewrite (get_og_via_graphql_failure env owner repo token w Hfail). }
  split; [exact Heq |]. intros found w2 Hs. by rewrite Heq.
Qed.

Lemma graphql_failure_falls_through_witness :
  exists w2,
    resolve_og api_down "github.com/octocat/Hello-World.git" empty_world
    = Done ("octocat", "Hello-World", JStr image_url) w2.
Proof.
  eexists.
  refine (proj2 (graphql_failure_falls_through api_down
                   "github.com/octocat/Hello-World.git"
                   "octocat" "Hello-World" "t0ken" empty_world
                   ltac:(vm_compute; reflexivity) ltac:(vm_compute; reflexivity)
                   (network_error _)) _ _ _).
  vm_compute. reflexivity.
Defined.

(** ** [download_with_retry] *)

(** C1, at an input where the code departs from the claim.  The owner has
    a space: the first call writes the sanitized name, the lookup of the
    second call globs for the name as given and misses, and the second call
    sends a second request. *)
Theorem second_fetch_misses_sanitized_name :
  let env := always (reply 200 (Some "image/png") ["PNG"] None) in
  match download_with_retry env image_url "a b" "r" default_max_retries empty_world with
  | Done p w1 =>
      p = "a_b-r-opengraph.png"
      /\ files w1 !! p = Some "PNG"
      /\ length (sent w1) = 1%nat
      /\ find_cached "a b" "r" w1 = Done None w1
      /\ match download_with_retry env image_url "a b" "r" default_max_retries w1 with
         | Done p' w2 => p' = p /\ length (sent w2) = 2%nat
         | _ => False
         end
  | _ => False
  end.
Proof. vm_compute. repeat split. Qed.

(** C2, as amended.  After a cache miss, if the first [k] replies are 429
    for some [k] below [max_retries] and the next reply is 200 with a body
    that arrives whole, the call succeeds and writes one file, the cache
    file, with [k + 1] requests; if the first [max_retries] replies are all
    429 the call fails with [RateLimited], writes nothing and sends no
    further request. *)
Theorem retry_within_budget `{PyLib} (env : Env) (url owner repo : string)
    (max_retries : Z) (w : World) (k : nat) :
  find_cached owner repo w = Done None w ->
  rate_limited env k (download_request url owner repo) w ->
  (forall r : Response,
     (k < Z.to_nat max_retries)%nat ->
     net env (length (sent w) + k) (download_request url owner repo) = Answer r ->
     status_code r = 200%Z -> stream_error r = None ->
     exists w',
       download_with_retry env url owner repo max_retries w
       = Done (cache_name owner repo (extension url r)) w'
       /\ files w' = <[cache_name owner repo (extension url r) := Str.join (chunks r)]> (files w)
       /\ length (sent w') = S (length (sent w) + k))
  /\ (k = Z.to_nat max_retries ->
      exists w' e,
        download_with_retry env url owner repo max_retries w = Failed e w'
        /\ RateLimited e
        /\ files w' = files w
        /\ length (sent w') = (length (sent w) + k)%nat).
Proof.
  intros Hmiss Hlim. split.
  - intros r Hk Hr Hs Herr.
    rewrite (download_reply env url owner repo max_retries w k r) by (done || congruence).
    rewrite Hs, Herr. cbn [http_error Z.leb Z.ltb Z.compare Pos.compare Pos.compare_cont andb].
    eexists. split; [done |]. cbn [files sent]. split; [done |].
    cbn [length]. by rewrite after_rounds_sent.
  - intros ->. rewrite (download_exhausted env) by done.
    eexists _, _. split; [done |]. split; [done |]. split; [done |].
    apply after_rounds_sent.
Qed.

Lemma retry_within_budget_witness :
  (exists w',
     download_with_retry (limited_then_png 4) image_url "octocat" "Hello-World" 5 empty_world
     = Done "octocat-Hello-World-opengraph.png" w'
     /\ files w' = <["octocat-Hello-World-opengraph.png" := "PNG"]> ∅
     /\ length (sent w') = 5%nat)
  /\ (exists w' e,
        download_with_retry (limited_then_png 5) image_url "octocat" "Hello-World" 5 empty_world
        = Failed e w'
        /\ RateLimited e /\ files w' = ∅ /\ length (sent w') = 5%nat).
Proof.
  split.
  - pose proof (proj1 (retry_within_budget (limited_then_png 4) image_url
                         "octocat" "Hello-World" 5 empty_world 4
                         (empty_world_miss "octocat" "Hello-World" ltac:(vm_compute; reflexivity))
                         (limited_then_png_rate_limited 4 4 _ (le_n 4)))
                      (response 200 (Some "image/png") ["PNG"] None)) as W.
    destruct W as (w' & W1 & W2 & W3); [vm_compute; lia | done | done | done |].
    exists w'. split; [exact W1 |]. split; [exact W2 | exact W3].
  - pose proof (proj2 (retry_within_budget (limited_then_png 5) image_url
                         "octocat" "Hello-World" 5 empty_world 5
                         (empty_world_miss "octocat" "Hello-World" ltac:(vm_compute; reflexivity))
                         (limited_then_png_rate_limited 5 5 _ (le_n 5))) eq_refl)
      as (w' & e & W1 & W2 & W3 & W4).
    exists w', e. split; [exact W1 |]. split; [exact W2 |]. split; [exact W3 | exact W4].
Defined.

(** C2, the claim as stated fails: with the default budget of 5, five
    replies 429 followed by a 200 end in [RateLimited]; the 200 is never
    asked for and no file is written. *)
Lemma five_429_then_200_is_rate_limited :
  statuses (limited_then_png 5) (download_request image_url "octocat" "Hello-World") 6
  = [Some 429; Some 429; Some 429; Some 429; Some 429; Some 200]%Z
  /\ match download_with_retry (limited_then_png 5) image_url "octocat" "Hello-World"
                               default_max_retries empty_world with
     | Failed e w' => RateLimited e /\ files w' = ∅ /\ length (sent w') = 5%nat
     | _ => False
     end.
Proof. vm_compute. repeat split. Qed.

(** C3.  After a cache miss, [k] replies 429 within the budget do not end
    the call: it goes on with the attempts that are left.  The [i]-th sleep
    lasts the back-off, which starts at 1 second and doubles with each 429,
    plus a jitter between 0 and 0.35 seconds.  No run sends more requests
    than [max_retries], 5 by default, and when every attempt is answered
    with 429 the call fails with [RateLimited], whose message tells the user
    to save the image directly in the browser. *)
Theorem rate_limit_backoff `{PyLib} (env : Env) (url owner repo : string)
    (max_retries : Z) (w : World) (k : nat) :
  (forall n, 0 <= random env n /\ random env n < 1)%Q ->
  find_cached owner repo w = Done None w ->
  (k <= Z.to_nat max_retries)%nat ->
  rate_limited env k (download_request url owner repo) w ->
  let w' := after_rounds env k 1 (download_request url owner repo) w in
  download_with_retry env url owner repo max_retries w
  = attempts env (Z.to_nat max_retries - k) (backoff_after k 1) url owner repo w'
  /\ (backoff_after k 1 == inject_Z (2 ^ Z.of_nat k))%Q
  /\ slept w' = (rev (sleeps env k 1 (draws w)) ++ slept w)%list
  /\ length (sleeps env k 1 (draws w)) = k
  /\ (forall (i : nat) (x : Q),
        sleeps env k 1 (draws w) !! i = Some x ->
        exists jitter : Q,
          (0 <= jitter /\ jitter <= 35 # 100)%Q
          /\ (x == inject_Z (2 ^ Z.of_nat i) + jitter)%Q)
  /\ requests_within (Z.to_nat max_retries) w
       (download_with_retry env url owner repo max_retries w)
  /\ default_max_retries = 5%Z
  /\ (k = Z.to_nat max_retries ->
      download_with_retry env url owner repo max_retries w
      = Failed (RuntimeError rate_limited_message) w'
      /\ RateLimited (RuntimeError rate_limited_message)
      /\ Str.contains "save it directly in your browser" rate_limited_message = true).
Proof.
  intros Hrand Hmiss Hk Hlim w'.
  assert (Hrun : download_with_retry env url owner repo max_retries w
                 = attempts env (Z.to_nat max_retries - k) (backoff_after k 1)
                            url owner repo w').
  { rewrite (download_miss env _ _ _ _ _ Hmiss).
    by apply attempts_rate_limited. }
  split; [exact Hrun |].
  split; [rewrite backoff_after_pow; ring |].
  split; [done |].
  split; [apply sleeps_length |].
  split.
  { intros i x Hx. destruct (sleeps_spec env k Hrand 1 (draws w) i x Hx) as (j & Hj & Hxj).
    exists j. split; [done |]. rewrite Hxj. ring. }
  split.
  { rewrite (download_miss env _ _ _ _ _ Hmiss). apply attempts_requests. }
  split; [done |].
  intros ->. split; [|split; [done | by vm_compute]].
  rewrite Hrun. by rewrite Nat.sub_diag.
Qed.

Lemma rate_limit_backoff_witness :
  download_with_retry (limited_then_png 2) image_url "octocat" "Hello-World" 5 empty_world
  = attempts (limited_then_png 2) 3 (backoff_after 2 1) image_url "octocat" "Hello-World"
      (after_rounds (limited_then_png 2) 2 1
         (download_request image_url "octocat" "Hello-World") empty_world).
Proof.
  assert (Hrand : forall n, (0 <= random (limited_then_png 2) n
                             /\ random (limited_then_png 2) n < 1)%Q).
  { intros n. split; by vm_compute. }
  pose proof (rate_limit_backoff (limited_then_png 2) image_url "octocat" "Hello-World"
                5 empty_world 2 Hrand
                (empty_world_miss "octocat" "Hello-World" ltac:(vm_compute; reflexivity))
                ltac:(vm_compute; lia)
                (limited_then_png_rate_limited 2 2 _ (le_n 2))) as W.
  destruct W as [W _]. exact W.
Defined.

(** C7, as amended.  When the stream of the body breaks after a status
    that is neither 429 nor an error, the call fails with the error of the
    stream and the cache file stays, holding the chunks received before the
    error; for an owner and a name that [sanitize] leaves alone and a
    non-empty extension, every later call for the same identity returns
    that file as a cache hit, without a request. *)
Theorem partial_file_is_cached `{PyLib} (env : Env) (url owner repo : string)
    (max_retries : Z) (w : World) (k : nat) (r : Response) (e : exn) :
  find_cached owner repo w = Done None w ->
  (k < Z.to_nat max_retries)%nat ->
  rate_limited env k (download_request url owner repo) w ->
  net env (length (sent w) + k) (download_request url owner repo) = Answer r ->
  status_code r <> 429%Z -> http_error (status_code r) = false ->
  stream_error r = Some e ->
  let name := cache_name owner repo (extension url r) in
  exists w',
    download_with_retry env url owner repo max_retries w = Failed e w'
    /\ files w' = <[name := Str.join (chunks r)]> (files w)
    /\ (safe owner -> safe repo -> extension url r <> "" ->
        forall (env' : Env) (url' : string) (max_retries' : Z),
          download_with_retry env' url' owner repo max_retries' w' = Done name w').
Proof.
  intros Hmiss Hk Hlim Hr Hs Herr Hstream name.
  rewrite (download_reply env url owner repo max_retries w k r) by done.
  rewrite Herr, Hstream. eexists. split; [done |]. split; [done |].
  intros Ho Hrp Hext env' url' max'. apply download_hit.
  eapply find_cached_after_write; try done.
  by apply extension_dot.
Qed.

Lemma partial_file_is_cached_witness :
  let r := response 200 (Some "image/png") ["PN"]
                    (Some (RequestException "connection broken")) in
  exists w',
    download_with_retry broken_stream image_url "octocat" "Hello-World" 5 empty_world
    = Failed (RequestException "connection broken") w'
    /\ files w' = <[cache_name "octocat" "Hello-World" (extension image_url r)
                     := Str.join (chunks r)]> (files empty_world).
Proof.
  intros r.
  destruct (partial_file_is_cached broken_stream image_url "octocat" "Hello-World" 5
              empty_world 0 r (RequestException "connection broken")
              (empty_world_miss "octocat" "Hello-World" ltac:(vm_compute; reflexivity))
              ltac:(vm_compute; lia)
              ltac:(intros i Hi; lia)
              eq_refl ltac:(by vm_compute) ltac:(by vm_compute) eq_refl)
    as (w' & W1 & W2 & _).
  exists w'. split; [exact W1 | exact W2].
Defined.

(** C7, the claim as stated fails: after the stream broke, the file with
    the first chunk is in the cache directory under the cache name, the
    lookup finds it, and the next call returns it without a request. *)
Lemma partial_file_served_from_cache :
  match download_with_retry broken_stream image_url "octocat" "Hello-World"
                            default_max_retries empty_world with
  | Failed e w1 =>
      e = RequestException "connection broken"
      /\ files w1 !! "octocat-Hello-World-opengraph.png" = Some "PN"
      /\ find_cached "octocat" "Hello-World" w1
         = Done (Some "octocat-Hello-World-opengraph.png") w1
      /\ download_with_retry (limited_then_png 0) image_url "octocat" "Hello-World"
                             default_max_retries w1
         = Done "octocat-Hello-World-opengraph.png" w1
  | _ => False
  end.
Proof. vm_compute. repeat split. Qed.

(** C8, as amended.  After a cache miss and [k] replies 429 within the
    budget, a reply whose status is a client or server error (400 to 599)
    other than 429 ends the call at once with [DownloadFailed]: no file is
    written, no further request is sent and no further sleep is made. *)
Theorem http_error_fails_at_once `{PyLib} (env : Env) (url owner repo : string)
    (max_retries : Z) (w : World) (k : nat) (r : Response) :
  find_cached owner repo w = Done None w ->
  (k < Z.to_nat max_retries)%nat ->
  rate_limited env k (download_request url owner repo) w ->
  net env (length (sent w) + k) (download_request url owner repo) = Answer r ->
  status_code r <> 429%Z ->
  (400 <= status_code r < 600)%Z ->
  exists w',
    download_with_retry env url owner repo max_retries w
    = Failed (HTTPError (status_code r)) w'
    /\ DownloadFailed (HTTPError (status_code r))
    /\ files w' = files w
    /\ length (sent w') = S (length (sent w) + k)
    /\ length (slept w') = (length (slept w) + k)%nat.
Proof.
  intros Hmiss Hk Hlim Hr Hs Hrange.
  rewrite (download_reply env url owner repo max_retries w k r) by done.
  assert (Herr : http_error (status_code r) = true).
  { unfold http_error. apply andb_true_iff. split; [apply Z.leb_le | apply Z.ltb_lt]; lia. }
  rewrite Herr. eexists. split; [done |]. split; [done |]. split; [done |].
  cbn [sent slept length]. split.
  - by rewrite after_rounds_sent.
  - cbn [slept after_rounds]. rewrite length_app, length_rev, (sleeps_length env). lia.
Qed.

Lemma http_error_fails_at_once_witness :
  exists w',
    download_with_retry (always (reply 404 None [] None)) image_url "octocat" "Hello-World"
                        5 empty_world
    = Failed (HTTPError 404) w'
    /\ files w' = ∅ /\ length (sent w') = 1%nat /\ length (slept w') = 0%nat.
Proof.
  destruct (http_error_fails_at_once (always (reply 404 None [] None)) image_url
              "octocat" "Hello-World" 5 empty_world 0 (response 404 None [] None)
              (empty_world_miss "octocat" "Hello-World" ltac:(vm_compute; reflexivity))
              ltac:(vm_compute; lia)
              ltac:(intros i Hi; lia)
              eq_refl ltac:(by vm_compute) ltac:(by vm_compute))
    as (w' & W1 & _ & W2 & W3 & W4).
  exists w'. split; [exact W1 |]. split; [exact W2 |]. split; [exact W3 | exact W4].
Defined.

(** C8, the claim as stated fails: 304 is not a success status, and the
    call does not fail on it; it writes the empty body to the cache file
    and returns it. *)
Lemma status_304_is_stored :
  match download_with_retry (always (reply 304 None [] None)) image_url
                            "octocat" "Hello-World" default_max_retries empty_world with
  | Done p w' =>
      p = "octocat-Hello-World-opengraph.jpg"
      /\ files w' !! p = Some ""
      /\ length (sent w') = 1%nat
  | _ => False
  end.
Proof. vm_compute. repeat split. Qed.

(** C9, at an input where the code departs from the claim.  The URL ends
    in a bare [.png] component and the reply has no content type: the body
    is written whole, but under a name with no extension at all, neither
    [.png] nor [.jpg]. *)
Theorem bare_suffix_gives_no_extension :
  let url := "https://example.com/.png" in
  let r := response 200 None ["ab"; ""; "cd"] None in
  existsb (fun sfx => Str.endswith sfx (Str.lower url)) image_suffixes = true
  /\ extension url r = ""
  /\ match download_with_retry (always (Answer r)) url "octocat" "Hello-World"
                               default_max_retries empty_world with
     | Done p w' =>
         p = "octocat-Hello-World-opengraph"
         /\ map_to_list (files w') = [(p, "abcd")]
     | _ => False
     end.
Proof.
  vm_compute. repeat split.
Qed.

(** * Further properties of the program *)

(** ** The cache file and the download directory *)

Lemma sanitize_only_safe (s : string) : Str.forallb safe_char (sanitize s) = true.
Proof.
  unfold sanitize. induction s as [|c s IH]; [done |]. cbn [Str.map Str.forallb].
  rewrite IH, andb_true_r. by destruct (safe_char c) eqn:E.
Qed.

Lemma sanitize_length (s : string) : String.length (sanitize s) = String.length s.
Proof. unfold sanitize. induction s as [|c s IH]; cbn; [done | by rewrite IH]. Qed.

(** X1.  Whatever the owner, the name and the extension are, the cache file
    name is made of letters, digits, underscores, dots and hyphens only: it
    has no slash, so the file is created in the download directory itself,
    it is as long as the name it was made from, and sanitizing it again
    changes nothing. *)
Theorem cache_name_stays_in_directory (owner repo ext : string) :
  Str.forallb safe_char (cache_name owner repo ext) = true
  /\ Str.mem "/" (cache_name owner repo ext) = false
  /\ sanitize (cache_name owner repo ext) = cache_name owner repo ext
  /\ String.length (cache_name owner repo ext)
     = String.length (owner +:+ "-" +:+ repo +:+ "-opengraph" +:+ ext).
Proof.
  pose proof (sanitize_only_safe (owner +:+ "-" +:+ repo +:+ "-opengraph" +:+ ext)) as Hs.
  fold (cache_name owner repo ext) in Hs.
  split; [exact Hs |]. split; [| split].
  - apply StrFacts.mem_false_forallb. eapply StrFacts.forallb_impl; [|exact Hs].
    intros c Hc. apply negb_true_iff. by apply safe_char_not.
  - by apply sanitize_safe.
  - apply sanitize_length.
Qed.

(** ** Runs of the downloader *)

(** X2.  After a cache miss and a download that succeeds, for an owner and
    a name that [sanitize] leaves alone and a non-empty extension: the file
    holds the body, and every later call for the same owner and name,
    whatever its URL, its budget and the state of the network, returns the
    same path and leaves the world as it is, so it sends no request and
    writes nothing. *)
Theorem cached_after_success `{PyLib} (env : Env) (url owner repo : string)
    (max_retries : Z) (w : World) (k : nat) (r : Response) :
  find_cached owner repo w = Done None w ->
  (k < Z.to_nat max_retries)%nat ->
  rate_limited env k (download_request url owner repo) w ->
  net env (length (sent w) + k) (download_request url owner repo) = Answer r ->
  status_code r <> 429%Z -> http_error (status_code r) = false ->
  stream_error r = None ->
  safe owner -> safe repo -> extension url r <> "" ->
  let name := cache_name owner repo (extension url r) in
  exists w',
    download_with_retry env url owner repo max_retries w = Done name w'
    /\ files w' !! name = Some (Str.join (chunks r))
    /\ forall (env' : Env) (url' : string) (max_retries' : Z),
         download_with_retry env' url' owner repo max_retries' w' = Done name w'.
Proof.
  intros Hmiss Hk Hlim Hr Hs Herr Hstream Ho Hrp Hext name.
  rewrite (download_reply env url owner repo max_retries w k r) by done.
  rewrite Herr, Hstream. eexists. split; [done |]. split.
  - cbn [files]. apply lookup_insert_eq.
  - intros env' url' max'. apply download_hit.
    eapply find_cached_after_write; try done.
    by apply extension_dot.
Qed.

Lemma cached_after_success_witness :
  let r := response 200 (Some "image/png") ["PNG"] None in
  let name := cache_name "octocat" "Hello-World" (extension image_url r) in
  exists w',
    download_with_retry (limited_then_png 2) image_url "octocat" "Hello-World" 5 empty_world
    = Done name w'
    /\ files w' !! name = Some (Str.join (chunks r))
    /\ forall (env' : Env) (url' : string) (max_retries' : Z),
         download_with_retry env' url' "octocat" "Hello-World" max_retries' w' = Done name w'.
Proof.
  intros r name.
  exact (cached_after_success (limited_then_png 2) image_url "octocat" "Hello-World" 5
           empty_world 2 r
           (empty_world_miss "octocat" "Hello-World" ltac:(vm_compute; reflexivity))
           ltac:(vm_compute; lia)
           (limited_then_png_rate_limited 2 2 _ (le_n 2))
           eq_refl ltac:(by vm_compute) ltac:(by vm_compute) eq_refl
           ltac:(by vm_compute) ltac:(by vm_compute) ltac:(by vm_compute)).
Defined.

(** X3.  With a budget of zero or less the loop has no attempt: after a
    cache miss the call fails with the rate-limit error at once, without a
    request, a sleep or a file. *)
Theorem no_budget_no_request `{PyLib} (env : Env) (url owner repo : string)
    (max_retries : Z) (w : World) :
  find_cached owner repo w = Done None w ->
  (max_retries <= 0)%Z ->
  download_with_retry env url owner repo max_retries w
  = Failed (RuntimeError rate_limited_message) w.
Proof.
  intros Hmiss Hmax. rewrite (download_miss env _ _ _ _ _ Hmiss).
  by replace (Z.to_nat max_retries) with 0%nat by lia.
Qed.

Lemma no_budget_no_request_witness :
  download_with_retry (limited_then_png 0) image_url "octocat" "Hello-World" 0 empty_world
  = Failed (RuntimeError rate_limited_message) empty_world.
Proof.
  exact (no_budget_no_request (limited_then_png 0) image_url "octocat" "Hello-World" 0
           empty_world
           (empty_world_miss "octocat" "Hello-World" ltac:(vm_compute; reflexivity))
           ltac:(lia)).
Defined.

(** X4.  An attempt that gets no answer (a connection error, a timeout)
    ends the call with that error: it is not retried, whatever is left of
    the budget, and no file is written. *)
Theorem network_error_is_not_retried `{PyLib} (env : Env) (url owner repo : string)
    (max_retries : Z) (w : World) (k : nat) (e : exn) :
  find_cached owner repo w = Done None w ->
  (k < Z.to_nat max_retries)%nat ->
  rate_limited env k (download_request url owner repo) w ->
  net env (length (sent w) + k) (download_request url owner repo) = NoAnswer e ->
  exists w',
    download_with_retry env url owner repo max_retries w = Failed e w'
    /\ files w' = files w
    /\ length (sent w') = S (length (sent w) + k).
Proof.
  intros Hmiss Hk Hlim Hr.
  rewrite (download_miss env _ _ _ _ _ Hmiss).
  rewrite (attempts_rate_limited env k) by (done || lia).
  destruct (Z.to_nat max_retries - k)%nat as [|m] eqn:Hm; [lia |].
  rewrite (attempts_no_answer env _ _ _ _ _ _ e).
  2:{ by rewrite after_rounds_sent. }
  eexists. split; [done |]. split; [done |].
  cbn [sent length]. by rewrite after_rounds_sent.
Qed.

Lemma network_error_is_not_retried_witness :
  exists w',
    download_with_retry (always (NoAnswer (RequestException "timed out"))) image_url
                        "octocat" "Hello-World" 5 empty_world
    = Failed (RequestException "timed out") w'
    /\ files w' = files empty_world
    /\ length (sent w') = 1%nat.
Proof.
  exact (network_error_is_not_retried (always (NoAnswer (RequestException "timed out")))
           image_url "octocat" "Hello-World" 5 empty_world 0 (RequestException "timed out")
           (empty_world_miss "octocat" "Hello-World" ltac:(vm_compute; reflexivity))
           ltac:(vm_compute; lia)
           ltac:(intros i Hi; lia)
           eq_refl).
Defined.

Section FrameFacts.
Context `{PyLib} (env : Env).

Lemma only_cache_file_same {A : Type} (owner repo : string) (w w' : World) (o : outcome A) :
  files w' = files w -> only_cache_file owner repo w' o -> only_cache_file owner repo w o.
Proof. intros Hf. destruct o; cbn; by rewrite ?Hf. Qed.

Lemma only_cache_file_insert (owner repo ext content : string) (w w' : World) :
  files w' = <[cache_name owner repo ext := content]> (files w) ->
  (forall n, is_Some (files w !! n) -> is_Some (files w' !! n))
  /\ (forall n, (forall ext', n <> cache_name owner repo ext') ->
                files w' !! n = files w !! n).
Proof.
  intros ->. split.
  - intros n Hn. destruct (decide (n = cache_name owner repo ext)) as [->|Hne].
    + rewrite lookup_insert_eq. eauto.
    + by rewrite lookup_insert_ne.
  - intros n Hn. by rewrite lookup_insert_ne.
Qed.

Lemma attempts_only_cache_file (n : nat) : forall b url owner repo w,
  only_cache_file owner repo w (attempts env n b url owner repo w).
Proof.
  induction n as [|n IH]; intros b url owner repo w.
  - cbn. split; [done | done].
  - destruct (net env (length (sent w)) (download_request url owner repo)) as [r|e] eqn:Hr.
    2:{ rewrite (attempts_no_answer _ _ _ _ _ _ _ e Hr). cbn. split; done. }
    destruct (Z.eq_dec (status_code r) 429%Z) as [Hs|Hs].
    + rewrite (attempts_rate_limited env 1); [| lia |].
      * cbn [Nat.sub]. rewrite Nat.sub_0_r.
        eapply only_cache_file_same; [|apply IH]. done.
      * intros i Hi. exists r. by replace i with 0%nat by lia; rewrite Nat.add_0_r.
    + destruct (http_error (status_code r)) eqn:Herr.
      * rewrite (attempts_http_error _ _ _ _ _ _ _ r Hr Hs Herr). cbn. split; done.
      * rewrite (attempts_reply _ _ _ _ _ _ _ r Hr Hs Herr).
        destruct (stream_error r); cbn [only_cache_file];
          by eapply only_cache_file_insert.
Qed.

Lemma download_only_cache_file (url owner repo : string) (max_retries : Z) (w : World) :
  Path.plain_pattern (cache_pattern owner repo) = true ->
  only_cache_file owner repo w (download_with_retry env url owner repo max_retries w).
Proof.
  intros Hplain. unfold download_with_retry, bind, find_cached, Path.glob.
  rewrite Hplain.
  destruct (List.filter _ _) as [|p l].
  - apply attempts_only_cache_file.
  - cbn. split; done.
Qed.

End FrameFacts.

(** X5.  For every owner and name, whatever the network answers, the loop
    that runs after a cache miss ends with every file of the download
    directory still there, and with no file changed or new except a cache
    file of the owner and the name.  For an owner and a name whose lookup
    pattern stays in the directory (no slash, no bracket, no double star)
    the same holds of the whole call, the cache lookup included. *)
Theorem download_touches_own_cache_file_only `{PyLib} (env : Env)
    (url owner repo : string) (max_retries : Z) (n : nat) (b : Q) (w : World) :
  only_cache_file owner repo w (attempts env n b url owner repo w)
  /\ (Path.plain_pattern (cache_pattern owner repo) = true ->
      only_cache_file owner repo w
        (download_with_retry env url owner repo max_retries w)).
Proof.
  split; [apply attempts_only_cache_file | apply download_only_cache_file].
Qed.

Section SleepFacts.
Context (env : Env).

Lemma total_app (a b : list Q) : (total (a ++ b) == total a + total b)%Q.
Proof.
  induction a as [|x a IH]; cbn [total app].
  - ring.
  - rewrite IH. ring.
Qed.

Lemma total_sleeps (k : nat) :
  (forall n, 0 <= random env n /\ random env n < 1)%Q ->
  forall (b : Q) (d : nat), (0 <= b)%Q ->
  (b * inject_Z (2 ^ Z.of_nat k - 1) <= total (sleeps env k b d))%Q
  /\ (total (sleeps env k b d)
      <= b * inject_Z (2 ^ Z.of_nat k - 1) + (35 # 100) * inject_Z (Z.of_nat k))%Q.
Proof.
  intros Hrand. induction k as [|k IH]; intros b d Hb.
  - cbn [sleeps total]. change (inject_Z (2 ^ Z.of_nat 0 - 1)) with 0%Q.
    change (inject_Z (Z.of_nat 0)) with 0%Q. split; lra.
  - cbn [sleeps total].
    destruct (IH (b * 2)%Q (S d) ltac:(lra)) as [Hlo Hhi].
    destruct (Hrand d) as [H0 H1].
    assert (Hpow : (inject_Z (2 ^ Z.of_nat (S k) - 1)
                    == 2 * inject_Z (2 ^ Z.of_nat k - 1) + 1)%Q).
    { rewrite Nat2Z.inj_succ, Z.pow_succ_r by lia.
      replace (2 * 2 ^ Z.of_nat k - 1)%Z with (2 * (2 ^ Z.of_nat k - 1) + 1)%Z by lia.
      rewrite inject_Z_plus, inject_Z_mult. reflexivity. }
    assert (Hk : (inject_Z (Z.of_nat (S k)) == inject_Z (Z.of_nat k) + 1)%Q).
    { rewrite Nat2Z.inj_succ. unfold Z.succ. by rewrite inject_Z_plus. }
    rewrite Hpow, Hk.
    set (c := inject_Z (2 ^ Z.of_nat k - 1)) in *.
    set (t := total (sleeps env k (b * 2) (S d))) in *.
    set (m := inject_Z (Z.of_nat k)) in *.
    split; nra.
Qed.

End SleepFacts.

(** X6.  When every attempt is answered with 429, the call has slept once
    per attempt, the last time too, before it fails: with a budget of [n]
    attempts that is at least [2^n - 1] seconds (31 seconds by default) and
    at most [0.35 n] seconds more. *)
Theorem exhausted_budget_sleep_time `{PyLib} (env : Env) (url owner repo : string)
    (max_retries : Z) (w : World) :
  (forall n, 0 <= random env n /\ random env n < 1)%Q ->
  find_cached owner repo w = Done None w ->
  rate_limited env (Z.to_nat max_retries) (download_request url owner repo) w ->
  let n := Z.to_nat max_retries in
  let naps := sleeps env n 1 (draws w) in
  exists w',
    download_with_retry env url owner repo max_retries w
    = Failed (RuntimeError rate_limited_message) w'
    /\ slept w' = (rev naps ++ slept w)%list
    /\ length naps = n
    /\ (inject_Z (2 ^ Z.of_nat n - 1) <= total naps)%Q
    /\ (total naps <= inject_Z (2 ^ Z.of_nat n - 1) + (35 # 100) * inject_Z (Z.of_nat n))%Q.
Proof.
  intros Hrand Hmiss Hlim n naps.
  rewrite (download_exhausted env) by done.
  eexists. split; [done |]. split; [done |]. split; [apply sleeps_length |].
  destruct (total_sleeps env n Hrand 1 (draws w) ltac:(lra)) as [Hlo Hhi].
  fold naps in Hlo, Hhi. split; lra.
Qed.

Lemma exhausted_budget_sleep_time_witness :
  exists w',
    download_with_retry (limited_then_png 5) image_url "octocat" "Hello-World" 5 empty_world
    = Failed (RuntimeError rate_limited_message) w'
    /\ (31 <= total (sleeps (limited_then_png 5) 5 1 0))%Q
    /\ (total (sleeps (limited_then_png 5) 5 1 0) <= 3275 # 100)%Q.
Proof.
  assert (Hrand : forall n, (0 <= random (limited_then_png 5) n
                             /\ random (limited_then_png 5) n < 1)%Q).
  { intros n. split; by vm_compute. }
  destruct (exhausted_budget_sleep_time (limited_then_png 5) image_url "octocat"
              "Hello-World" 5 empty_world Hrand
              (empty_world_miss "octocat" "Hello-World" ltac:(vm_compute; reflexivity))
              (limited_then_png_rate_limited 5 5 _ (le_n 5)))
    as (w' & W1 & _ & _ & W2 & W3).
  exists w'. split; [exact W1 |]. split; [exact W2 |].
  eapply Qle_trans; [exact W3 |]. by vm_compute.
Defined.

(** ** Runs of the resolver *)

Section ResolverRuns.
Context `{PyLib} (env : Env).

Lemma lstrip_all (p : ascii -> bool) (s : string) :
  Str.forallb p s = true -> Str.lstrip p s = "".
Proof.
  induction s as [|c s IH]; [done |]. cbn [Str.forallb Str.lstrip].
  intros [Hc Hs]%andb_true_iff. by rewrite Hc, IH.
Qed.

Lemma lstrip_nonempty (p : ascii -> bool) (s : string) :
  Str.forallb p s = false ->
  exists c rest, Str.lstrip p s = String c rest /\ p c = false.
Proof.
  induction s as [|c s IH]; [done |]. cbn [Str.forallb Str.lstrip].
  destruct (p c) eqn:Hc; cbn [andb]; [exact IH | eauto].
Qed.

Lemma rstrip_keeps_head (p : ascii -> bool) (c : ascii) (rest : string) :
  p c = false -> Str.nonempty (rstrip p (String c rest)) = true.
Proof. intros Hc. cbn [rstrip]. destruct (rstrip p rest); by rewrite ?Hc. Qed.

(** The token is usable unless the variable is unset or blank. *)
Lemma configured_token_none :
  configured_token env = None <->
  Str.forallb isspace (default "" (GITHUB_TOKEN env)) = true.
Proof.
  unfold configured_token, strip.
  destruct (Str.forallb isspace (default "" (GITHUB_TOKEN env))) eqn:Hsp.
  - by rewrite (lstrip_all _ _ Hsp).
  - destruct (lstrip_nonempty _ _ Hsp) as (c & rest & -> & Hc).
    by rewrite (rstrip_keeps_head _ _ _ Hc).
Qed.

Lemma get_og_from_html_request (url : string) (w : World) :
  match get_og_from_html env url w with
  | Done _ w' | Failed _ w' => w' = after_request (page_request url) w
  | Unmodelled => False
  end.
Proof.
  unfold get_og_from_html, bind, session_request.
  fold (page_request url). fold (after_request (page_request url) w).
  destruct (net env _ _) as [r|e]; [|done].
  unfold raise_for_status. by destruct (http_error (status_code r)).
Qed.

Lemma scrape_request (owner repo : string) (w : World) :
  match scrape env owner repo w with
  | Done _ w' | Failed _ w' => w' = after_request (page_request (repo_page owner repo)) w
  | Unmodelled => False
  end.
Proof.
  unfold scrape, bind. fold (repo_page owner repo).
  pose proof (get_og_from_html_request (repo_page owner repo) w) as Hg.
  destruct (get_og_from_html env _ w) as [[u|] w'| |]; done.
Qed.

Lemma image_field_lookup (doc v : json) :
  image_field doc = Some v -> image_lookup doc = Ok v.
Proof.
  unfold image_field, image_lookup. rewrite dict_get_field.
  destruct doc as [| | | | |fields]; try done. cbn [rbind].
  destruct (field "data" (JObj fields)) as [data|] eqn:Ed; [|done].
  cbn [default from_option id].
  destruct (field "repository" data) as [rp|] eqn:Er; [|done].
  destruct data as [| | | | |dfields]; try done.
  assert (Ht : truthy (JObj dfields) = true).
  { destruct dfields; [done | done]. }
  rewrite Ht, dict_get_field. cbn [rbind]. rewrite Er. cbn [default from_option id].
  intros Hf. rewrite dict_get_field. destruct rp; try done.
  by rewrite Hf.
Qed.

End ResolverRuns.

(** X7.  When the token variable is unset, empty or blank, [resolve_og]
    never calls the GraphQL API: for a URL that parses it is the scrape of
    the public page and nothing else, and the one request it sends is the
    GET of https://github.com/owner/repo. *)
Theorem no_token_scrapes_only `{PyLib} (env : Env) (url owner repo : string) (w : World) :
  parse_owner_repo url = Ok (owner, repo) ->
  Str.forallb isspace (default "" (GITHUB_TOKEN env)) = true ->
  resolve_og env url w = scrape env owner repo w
  /\ match resolve_og env url w with
     | Done _ w' | Failed _ w' =>
         sent w' = page_request (repo_page owner repo) :: sent w
     | Unmodelled => False
     end.
Proof.
  intros Hparse Hblank.
  assert (Heq : resolve_og env url w = scrape env owner repo w).
  { unfold resolve_og. rewrite Hparse.
    by rewrite (proj2 (configured_token_none env) Hblank). }
  split; [exact Heq |]. rewrite Heq.
  pose proof (scrape_request env owner repo w) as Hs.
  by destruct (scrape env owner repo w) as [? w'|? w'|]; subst.
Qed.

Lemma no_token_scrapes_only_witness :
  resolve_og (always (page "<meta name='x'>")) "github.com/octocat/Hello-World" empty_world
  = scrape (always (page "<meta name='x'>")) "octocat" "Hello-World" empty_world.
Proof.
  exact (proj1 (no_token_scrapes_only (always (page "<meta name='x'>"))
                  "github.com/octocat/Hello-World" "octocat" "Hello-World" empty_world
                  ltac:(vm_compute; reflexivity) ltac:(vm_compute; reflexivity))).
Defined.

(** X8.  With a token, when the GraphQL answer has no error status and its
    JSON body carries a non-empty image field, [resolve_og] returns that
    value with the owner and the name, and the POST to the API is the only
    request: the public page is not fetched. *)
Theorem graphql_answer_is_used `{PyLib} (env : Env) (url owner repo token : string)
    (w : World) (r : Response) (doc v : json) :
  parse_owner_repo url = Ok (owner, repo) ->
  configured_token env = Some token ->
  net env (length (sent w)) (graphql_request owner repo token) = Answer r ->
  http_error (status_code r) = false ->
  json_doc r = Some doc ->
  image_field doc = Some v ->
  truthy v = true ->
  resolve_og env url w
  = Done (owner, repo, v) (after_request (graphql_request owner repo token) w).
Proof.
  intros Hparse Htoken Hr Herr Hdoc Hfield Hv.
  unfold resolve_og. rewrite Hparse, Htoken. cbn [lift].
  unfold bind at 1. unfold ret at 1. cbn [fst snd].
  unfold bind at 1, catch, bind at 1.
  rewrite (get_og_via_graphql_answer env _ _ _ _ r Hr). cbn zeta.
  rewrite Herr, Hdoc, (image_field_lookup doc v Hfield).
  unfold ret. by rewrite Hv.
Qed.

Lemma graphql_answer_is_used_witness :
  resolve_og api_up "github.com/octocat/Hello-World" empty_world
  = Done ("octocat", "Hello-World", JStr image_url)
         (after_request (graphql_request "octocat" "Hello-World" "t0ken") empty_world).
Proof.
  exact (graphql_answer_is_used api_up "github.com/octocat/Hello-World"
           "octocat" "Hello-World" "t0ken" empty_world api_answer
           (JObj [("data", JObj [("repository",
                     JObj [("openGraphImageUrl", JStr image_url)])])])
           (JStr image_url)
           ltac:(vm_compute; reflexivity) ltac:(vm_compute; reflexivity)
           eq_refl ltac:(vm_compute; reflexivity) eq_refl
           ltac:(vm_compute; reflexivity) ltac:(vm_compute; reflexivity)).
Defined.

Lemma get_og_via_graphql_world `{PyLib} (env : Env) (owner repo token : string) (w : World) :
  match get_og_via_graphql env owner repo token w with
  | Done _ w' | Failed _ w' => w' = after_request (graphql_request owner repo token) w
  | Unmodelled => False
  end.
Proof.
  destruct (net env (length (sent w)) (graphql_request owner repo token)) as [r|e] eqn:Hr.
  - rewrite (get_og_via_graphql_answer env _ _ _ _ r Hr). cbn zeta.
    destruct (http_error (status_code r)); [done |].
    destruct (json_doc r) as [doc|]; [|done]. by destruct (image_lookup doc).
  - unfold get_og_via_graphql, bind at 1, session_request. by rewrite Hr.
Qed.

(** X9.  Whatever URL it is given and whatever the network answers,
    [resolve_og] sends at most two requests, each of them to GitHub (the
    GraphQL endpoint, or the page https://github.com/owner/repo that it
    builds itself, never the URL of the user), it writes no file, and when
    the URL does not parse it sends nothing at all. *)
Theorem resolve_og_contacts_github_only `{PyLib} (env : Env) (url : string) (w : World) :
  match resolve_og env url w with
  | Done _ w' | Failed _ w' =>
      files w' = files w
      /\ slept w' = slept w
      /\ exists new : list Request,
           sent w' = (new ++ sent w)%list
           /\ (length new <= 2)%nat
           /\ Forall to_github new
           /\ ((exists e, parse_owner_repo url = Raise e) -> new = [])
  | Unmodelled => False
  end.
Proof.
  unfold resolve_og.
  destruct (parse_owner_repo url) as [[owner repo]|e] eqn:Hparse; cbn [lift].
  2:{ unfold raise. split; [done |]. split; [done |]. exists [].
      split; [done |]. split; [cbn; lia |]. split; [constructor | done]. }
  unfold bind at 1, ret at 1. cbn [fst snd].
  assert (Hpage : to_github (page_request (repo_page owner repo))).
  { right. reflexivity. }
  assert (Hapi : forall token, to_github (graphql_request owner repo token)).
  { intros token. by left. }
  assert (Hscrape : forall w0 (pre : list Request),
            files w0 = files w -> slept w0 = slept w ->
            sent w0 = (pre ++ sent w)%list -> (length pre <= 1)%nat -> Forall to_github pre ->
            match scrape env owner repo w0 with
            | Done _ w' | Failed _ w' =>
                files w' = files w /\ slept w' = slept w
                /\ exists new : list Request,
                     sent w' = (new ++ sent w)%list /\ (length new <= 2)%nat
                     /\ Forall to_github new
                     /\ ((exists e, Ok (owner, repo) = @Raise (string * string) e) -> new = [])
            | Unmodelled => False
            end).
  { intros w0 pre Hf Hsl Hs Hlen Hall.
    pose proof (scrape_request env owner repo w0) as Hreq.
    destruct (scrape env owner repo w0) as [? w'|? w'|]; [| |done];
      subst w'; cbn [after_request files slept sent];
      (split; [done |]; split; [done |];
       exists (page_request (repo_page owner repo) :: pre);
       split; [by rewrite Hs |]; split; [cbn; lia |];
       split; [by constructor | by intros [? ?]]). }
  destruct (configured_token env) as [token|].
  2:{ unfold bind at 1, ret at 1. apply (Hscrape w []); try done. cbn; lia. }
  unfold bind at 1, catch, bind at 1.
  pose proof (get_og_via_graphql_world env owner repo token w) as Hw1.
  destruct (get_og_via_graphql env owner repo token w) as [v w1|e w1|]; [| |done].
  - unfold ret at 1. destruct (truthy v).
    + unfold ret. subst w1. cbn [after_request files slept sent].
      split; [done |]. split; [done |].
      exists [graphql_request owner repo token]. split; [done |]. split; [cbn; lia |].
      split; [by repeat constructor | by intros [? ?]].
    + subst w1. apply (Hscrape _ [graphql_request owner repo token]); try done.
      by repeat constructor.
  - unfold ret at 1. subst w1.
    apply (Hscrape _ [graphql_request owner repo token]); try done.
    by repeat constructor.
Qed.

(** ** The regular expression of the scrape *)

Module ReFacts.
Import Re.

Lemma forallb_snoc (p : ascii -> bool) (s : string) (c : ascii) :
  Str.forallb p s = true -> p c = true -> Str.forallb p (s +:+ String c "") = true.
Proof. intros Hs Hc. rewrite StrFacts.forallb_app, Hs. cbn. by rewrite Hc. Qed.

Lemma snoc_nonempty (s : string) (c : ascii) : s +:+ String c "" <> "".
Proof. by destruct s. Qed.

(** What a match returns as its group is the group it started with, or a
    non-empty text made of characters of the class of a group of the
    pattern. *)
Lemma match_here_group (items : list item) : forall (s : string) (g r : option string),
  match_here items s g = Some r ->
  r = g \/ exists u p, r = Some u /\ In (Group p) items /\ u <> ""
                       /\ Str.forallb p u = true.
Proof.
  induction items as [|it rest IH]; intros s g r.
  - cbn. intros [= <-]. by left.
  - assert (Hrest : forall s' g', match_here rest s' g' = Some r ->
              r = g' \/ exists u p, r = Some u /\ In (Group p) (it :: rest) /\ u <> ""
                                    /\ Str.forallb p u = true).
    { intros s' g' Hm. destruct (IH s' g' r Hm) as [->|(u & p & -> & Hin & Hne & Hp)];
        [by left | right; exists u, p; repeat split; [by right | done | done]]. }
    destruct it as [l|p|p|p]; cbn [match_here].
    + destruct (skip_lit l s); [apply Hrest | done].
    + destruct s as [|c s']; [done |]. destruct (p c); [apply Hrest | done].
    + induction s as [|c s' IHs]; [done |].
      destruct (p c); [|done].
      destruct ((fix more (s : string) : option (option string) :=
                   match s with
                   | "" => None
                   | String c s' =>
                       if p c then match more s' with
                                   | Some g0 => Some g0
                                   | None => match_here rest s' g
                                   end
                       else None
                   end) s') as [g0|] eqn:Hmore.
      * intros [= <-]. by apply IHs.
      * apply Hrest.
    + assert (Hloop : forall (s0 taken : string),
                Str.forallb p taken = true ->
                (fix more (taken s : string) : option (option string) :=
                   match s with
                   | "" => None
                   | String c s' =>
                       if p c then match more (taken +:+ String c "") s' with
                                   | Some g0 => Some g0
                                   | None => match_here rest s' (Some (taken +:+ String c ""))
                                   end
                       else None
                   end) taken s0 = Some r ->
                exists u p', r = Some u /\ In (Group p') (Group p :: rest) /\ u <> ""
                             /\ Str.forallb p' u = true).
      { induction s0 as [|c s' IHs]; intros taken Htaken; [done |].
        destruct (p c) eqn:Hc; [|done].
        destruct ((fix more (taken s : string) : option (option string) :=
                     match s with
                     | "" => None
                     | String c s' =>
                         if p c then match more (taken +:+ String c "") s' with
                                     | Some g0 => Some g0
                                     | None => match_here rest s' (Some (taken +:+ String c ""))
                                     end
                         else None
                     end) (taken +:+ String c "") s') as [g0|] eqn:Hmore.
        - intros [= <-]. apply (IHs (taken +:+ String c "")); [by apply forallb_snoc | done].
        - intros Hm. destruct (Hrest _ _ Hm) as [->|Hex]; [|done].
          exists (taken +:+ String c ""), p.
          split; [done |]. split; [by left |].
          split; [apply snoc_nonempty | by apply forallb_snoc]. }
      intros Hm. right. by apply (Hloop s "").
Qed.

Lemma search_group (items : list item) (s : string) (r : option string) :
  search items s = Some r ->
  r = None \/ exists u p, r = Some u /\ In (Group p) items /\ u <> ""
                          /\ Str.forallb p u = true.
Proof.
  induction s as [|c s IH]; cbn [search].
  - destruct (match_here items "" None) eqn:Hm; [|done].
    intros [= <-]. by apply (match_here_group items "" None).
  - destruct (match_here items (String c s) None) eqn:Hm; [|exact IH].
    intros [= <-]. by apply (match_here_group items (String c s) None).
Qed.

(** The group of the Open Graph pattern is never empty and has no quote. *)
Lemma og_image_group (s u : string) :
  search og_image s = Some (Some u) -> u <> "" /\ Str.forallb not_quote u = true.
Proof.
  intros Hsearch.
  destruct (search_group _ _ _ Hsearch) as [|(u' & p & [= <-] & Hin & Hne & Hp)];
    [done |].
  split; [done |].
  cbn in Hin. repeat (destruct Hin as [Hin|Hin]; [try discriminate |]); [|done].
  by injection Hin as <-.
Qed.

End ReFacts.

(** X10.  Whatever the page, a URL that [get_og_from_html] extracts is not
    empty and has no quote character of either kind in it; so a successful
    scrape never returns an empty image URL. *)
Theorem scraped_url_is_plain `{PyLib} (env : Env) (url u : string) (w w' : World) :
  get_og_from_html env url w = Done (Some u) w' ->
  u <> "" /\ Str.forallb Re.not_quote u = true.
Proof.
  unfold get_og_from_html, bind, session_request.
  destruct (net env _ _) as [r|e]; [|done].
  unfold raise_for_status. destruct (http_error (status_code r)); [done |].
  unfold ret. intros [= Hs _].
  destruct (Re.search Re.og_image (text r)) as [g|] eqn:Hsearch; [|done].
  cbn in Hs. subst g. by apply (ReFacts.og_image_group (text r)).
Qed.

Lemma scraped_url_is_plain_witness :
  image_url <> "" /\ Str.forallb Re.not_quote image_url = true.
Proof.
  exact (scraped_url_is_plain api_down "https://github.com/octocat/Hello-World" image_url
           (after_request (graphql_request "octocat" "Hello-World" "t0ken") empty_world)
           _ ltac:(vm_compute; reflexivity)).
Defined.

Module TagFacts.
Import Re.

Lemma lower_char_eq_sign (x : ascii) : Str.lower_char x = "="%char -> x = "="%char.
Proof. destruct x as [[] [] [] [] [] [] [] []]; vm_compute; intros E; done. Qed.

Lemma lower_char_gt_sign (x : ascii) : Str.lower_char x = ">"%char -> x = ">"%char.
Proof. destruct x as [[] [] [] [] [] [] [] []]; vm_compute; intros E; done. Qed.

Lemma lower_char_lt_sign (x : ascii) : Str.lower_char x = "<"%char -> x = "<"%char.
Proof. destruct x as [[] [] [] [] [] [] [] []]; vm_compute; intros E; done. Qed.

(** A literal with an equals sign and no [>] does not match in a text
    whose part before the first [>] has no equals sign. *)
Lemma skip_lit_no_eq (lit : string) : forall (v r : string),
  Str.mem "=" lit = true -> Str.mem ">" lit = false ->
  Str.forallb no_eq_gt v = true ->
  skip_lit lit (v +:+ String ">" r) = None.
Proof.
  induction lit as [|a lit IH]; intros v r Heq Hgt Hv; [done |].
  cbn [Str.mem] in Heq, Hgt. apply orb_false_iff in Hgt as [Ha Hgt].
  destruct v as [|x v]; cbn [String.append skip_lit].
  - destruct (Ascii.eqb_spec (Str.lower_char a) (Str.lower_char ">")) as [E|]; [|done].
    change (Str.lower_char ">") with ">"%char in E. apply lower_char_gt_sign in E.
    subst a. by rewrite Ascii.eqb_refl in Ha.
  - cbn [Str.forallb] in Hv. apply andb_true_iff in Hv as [Hx Hv].
    destruct (Ascii.eqb_spec (Str.lower_char a) (Str.lower_char x)) as [E|]; [|done].
    apply IH; [|done|done].
    destruct (Ascii.eqb_spec "=" a) as [<-|]; [|done].
    exfalso. change (Str.lower_char "=") with "="%char in E. symmetry in E.
    apply lower_char_eq_sign in E. subst x. done.
Qed.

Lemma many_cons (p : ascii -> bool) (rest : list item) (c : ascii) (s : string)
    (g : option string) :
  match_here (Many p :: rest) (String c s) g =
  if p c then match match_here (Many p :: rest) s g with
              | Some x => Some x
              | None => match_here rest s g
              end
  else None.
Proof. reflexivity. Qed.

Lemma many_no_eq (lit : string) (rest : list item) (g : option string) :
  Str.mem "=" lit = true -> Str.mem ">" lit = false ->
  forall (v r : string), Str.forallb no_eq_gt v = true ->
  match_here (Many not_gt :: Lit lit :: rest) (v +:+ String ">" r) g = None.
Proof.
  intros Heq Hgt v r. induction v as [|x v IH]; intros Hv.
  - done.
  - cbn [String.append]. rewrite many_cons.
    cbn [Str.forallb] in Hv. apply andb_true_iff in Hv as [Hx Hv].
    destruct (not_gt x); [|done]. rewrite (IH Hv).
    cbn [match_here]. by rewrite skip_lit_no_eq.
Qed.

Lemma group_is_loop (p : ascii -> bool) (rest : list item) (s : string) (g : option string) :
  match_here (Group p :: rest) s g = group_loop p rest "" s.
Proof. reflexivity. Qed.

(** A group of the class [p] before a quote takes the whole run. *)
Lemma group_loop_run (p : ascii -> bool) (u : string) : forall (taken r : string) (c : ascii),
  u <> "" -> Str.forallb p u = true -> p c = false -> quote c = true ->
  group_loop p [One quote] taken (u +:+ String c r) = Some (Some (taken +:+ u)).
Proof.
  induction u as [|x u IH]; intros taken r c Hne Hu Hc Hq; [done |].
  cbn [Str.forallb] in Hu. apply andb_true_iff in Hu as [Hx Hu].
  cbn [String.append group_loop]. rewrite Hx.
  destruct u as [|y u].
  - cbn [String.append group_loop]. rewrite Hc. cbn [match_here]. by rewrite Hq.
  - rewrite (IH (taken +:+ String x "") r c); [|done|done|done|done].
    by rewrite StrFacts.append_assoc.
Qed.

Lemma skip_lit_meta_straddle (b rest : string) :
  b <> "" -> skip_lit "<meta" b = None ->
  skip_lit "<meta" (b +:+ String "<" rest) = None.
Proof.
  assert (Hgen : forall (lit b : string),
            (forall a, Str.mem a lit = true -> Str.lower_char a <> "<"%char) ->
            skip_lit lit b = None -> skip_lit lit (b +:+ String "<" rest) = None).
  { induction lit as [|a lit IH]; intros b0 Hlit Hnone; [done |].
    destruct b0 as [|x b0]; cbn [String.append skip_lit] in *.
    - destruct (Ascii.eqb_spec (Str.lower_char a) (Str.lower_char "<")) as [E|]; [|done].
      exfalso. apply (Hlit a); [cbn; by rewrite Ascii.eqb_refl | exact E].
    - destruct (Ascii.eqb (Str.lower_char a) (Str.lower_char x)); [|done].
      apply IH; [|done]. intros a' Ha'. apply Hlit. cbn. by rewrite Ha', orb_true_r. }
  intros Hne Hnone. destruct b as [|x b]; [done |].
  change (skip_lit "<meta" (String x b))
    with (if Ascii.eqb (Str.lower_char "<") (Str.lower_char x)
          then skip_lit "meta" b else None) in Hnone.
  change (skip_lit "<meta" (String x b +:+ String "<" rest))
    with (if Ascii.eqb (Str.lower_char "<") (Str.lower_char x)
          then skip_lit "meta" (b +:+ String "<" rest) else None).
  destruct (Ascii.eqb (Str.lower_char "<") (Str.lower_char x)); [|done].
  apply Hgen; [|done].
  intros a Ha. cbn in Ha.
  repeat (apply orb_true_iff in Ha as [Ha|Ha];
          [apply Ascii.eqb_eq in Ha; subst a; by vm_compute |]).
  done.
Qed.

Lemma search_skips (pre rest : string) :
  occurs "<meta" pre = false ->
  search og_image (pre +:+ String "<" rest) = search og_image (String "<" rest).
Proof.
  induction pre as [|x pre IH]; [done |].
  cbn [occurs]. destruct (skip_lit "<meta" (String x pre)) eqn:Hs; [done |].
  intros Hocc. cbn [String.append search].
  assert (Hm : match_here og_image (String x (pre +:+ String "<" rest)) None = None).
  { unfold og_image. cbn [match_here].
    change (String x (pre +:+ String "<" rest)) with (String x pre +:+ String "<" rest).
    by rewrite skip_lit_meta_straddle. }
  rewrite Hm. by apply IH.
Qed.

End TagFacts.

Module TagMatch.
Import Re TagFacts.

Lemma many_prefix_none (p : ascii -> bool) (rest : list item) (g : option string)
    (a T : string) :
  match_here (Many p :: rest) T g = None ->
  tails_none rest a T g ->
  match_here (Many p :: rest) (a +:+ T) g = None.
Proof.
  intros HT. induction a as [|c a IH]; [done |].
  cbn [tails_none String.append]. intros [Hhere Htails].
  rewrite many_cons, (IH Htails), Hhere. by destruct (p c).
Qed.

Lemma lit_step (l : string) (rest : list item) (s : string) (g : option string) :
  match_here (Lit l :: rest) s g =
  match skip_lit l s with
  | Some s' => match_here rest s' g
  | None => None
  end.
Proof. reflexivity. Qed.

Lemma tag_matches_from (T u : string) :
  (forall g, match_here (Many not_gt :: rest1) T g = None) ->
  skip_lit "property=" T = None ->
  (forall g, match_here (Many not_gt :: rest2) T g = None) ->
  skip_lit "content=" T = None ->
  group_loop not_quote [One quote] "" T = Some (Some u) ->
  match_here og_image
    ("<meta property=" +:+ String DQUOTE ("og:image" +:+ String DQUOTE
       (" content=" +:+ String DQUOTE T))) None = Some (Some u).
Proof.
  intros H1 H2 H3 H4 H5.
  assert (HA : match_here (Many not_gt :: rest1) (attrs1 +:+ T) None = None).
  { apply many_prefix_none; [apply H1 |].
    unfold attrs1. cbn [String.append tails_none].
    repeat (split; [reflexivity |]).
    split; [|done]. unfold rest1. cbn [app]. by rewrite lit_step, H2. }
  assert (HB : match_here (Many not_gt :: rest2) (attrs2 +:+ T) None = None).
  { apply many_prefix_none; [apply H3 |].
    unfold attrs2. cbn [String.append tails_none].
    repeat (split; [reflexivity |]).
    split; [|done]. unfold rest2. by rewrite lit_step, H4. }
  change (match_here (Many not_gt :: rest1) (String " " (attrs1 +:+ T)) None
          = Some (Some u)).
  rewrite many_cons, HA.
  change (match_here (Many not_gt :: rest2) (String " " (attrs2 +:+ T)) None
          = Some (Some u)).
  rewrite many_cons, HB.
  exact H5.
Qed.

(** The tag in its usual form matches at its start, and the group is the
    content. *)
Lemma tag_matches (u gap r : string) :
  u <> "" -> Str.forallb plain_char u = true -> Str.forallb plain_char gap = true ->
  match_here og_image
    ("<meta property=" +:+ String DQUOTE ("og:image" +:+ String DQUOTE
       (" content=" +:+ String DQUOTE (u +:+ String DQUOTE (gap +:+ String ">" r)))))
    None = Some (Some u).
Proof.
  intros Hne Hu Hgap.
  assert (Hplain : forall c, plain_char c = true ->
            no_eq_gt c = true /\ not_quote c = true).
  { intros c. unfold plain_char, no_eq_gt, not_quote.
    intros [[-> ->]%andb_true_iff ->]%andb_true_iff. done. }
  assert (Hv : Str.forallb no_eq_gt (u +:+ String DQUOTE gap) = true).
  { rewrite StrFacts.forallb_app. cbn [Str.forallb].
    rewrite (StrFacts.forallb_impl plain_char no_eq_gt u (fun c Hc => proj1 (Hplain c Hc)) Hu).
    by rewrite (StrFacts.forallb_impl plain_char no_eq_gt gap
                  (fun c Hc => proj1 (Hplain c Hc)) Hgap). }
  assert (HT : u +:+ String DQUOTE (gap +:+ String ">" r)
               = (u +:+ String DQUOTE gap) +:+ String ">" r).
  { by rewrite StrFacts.append_assoc. }
  apply tag_matches_from.
  - intros g. rewrite HT. by apply many_no_eq.
  - rewrite HT. by apply skip_lit_no_eq.
  - intros g. rewrite HT. by apply many_no_eq.
  - rewrite HT. by apply skip_lit_no_eq.
  - rewrite (group_loop_run not_quote u "" _ DQUOTE); [done | done | | done | done].
    by apply (StrFacts.forallb_impl plain_char not_quote u (fun c Hc => proj2 (Hplain c Hc))).
Qed.

End TagMatch.

Lemma search_og_tag (pre u gap post : string) :
  occurs "<meta" pre = false ->
  u <> "" -> Str.forallb plain_char u = true -> Str.forallb plain_char gap = true ->
  Re.search Re.og_image (pre +:+ og_tag u gap +:+ post) = Some (Some u).
Proof.
  intros Hpre Hne Hu Hgap.
  assert (Htag : og_tag u gap +:+ post
                 = "<meta property=" +:+ String Re.DQUOTE ("og:image" +:+ String Re.DQUOTE
                     (" content=" +:+ String Re.DQUOTE
                        (u +:+ String Re.DQUOTE (gap +:+ String ">" post))))).
  { unfold og_tag. cbn [String.append].
    repeat (rewrite StrFacts.append_assoc; cbn [String.append]). reflexivity. }
  rewrite Htag.
  change ("<meta property=" +:+ ?x) with (String "<" ("meta property=" +:+ x)).
  rewrite TagFacts.search_skips by done.
  cbn [Re.search].
  change (String "<" ("meta property=" +:+ ?x)) with ("<meta property=" +:+ x).
  by rewrite TagMatch.tag_matches.
Qed.

(** X11.  When the page arrives without an error status and the first
    [<meta] of its text is the Open Graph tag in its usual form, with a
    non-empty content that has no quote, [>] or [=] in it,
    [get_og_from_html] returns that content, whatever follows the tag. *)
Theorem og_tag_is_scraped `{PyLib} (env : Env) (url : string) (w : World) (r : Response)
    (pre u gap post : string) :
  net env (length (sent w)) (page_request url) = Answer r ->
  http_error (status_code r) = false ->
  text r = pre +:+ og_tag u gap +:+ post ->
  occurs "<meta" pre = false ->
  u <> "" -> Str.forallb plain_char u = true -> Str.forallb plain_char gap = true ->
  get_og_from_html env url w = Done (Some u) (after_request (page_request url) w).
Proof.
  intros Hr Herr Htext Hpre Hne Hu Hgap.
  unfold get_og_from_html, bind at 1, session_request. fold (page_request url).
  rewrite Hr. fold (after_request (page_request url) w).
  unfold bind, raise_for_status. rewrite Herr. unfold ret.
  by rewrite Htext, search_og_tag.
Qed.

Lemma og_tag_is_scraped_witness :
  get_og_from_html
    (always (page ("<html><head><title>Hello</title>" +:+ og_tag image_url " /"
                   +:+ "<meta name='x' content='y'></head></html>")))
    "https://github.com/octocat/Hello-World" empty_world
  = Done (Some image_url)
         (after_request (page_request "https://github.com/octocat/Hello-World") empty_world).
Proof.
  exact (og_tag_is_scraped
           (always (page ("<html><head><title>Hello</title>" +:+ og_tag image_url " /"
                          +:+ "<meta name='x' content='y'></head></html>")))
           "https://github.com/octocat/Hello-World" empty_world _
           "<html><head><title>Hello</title>" image_url " /"
           "<meta name='x' content='y'></head></html>"
           eq_refl ltac:(vm_compute; reflexivity) eq_refl
           ltac:(vm_compute; reflexivity) ltac:(by vm_compute)
           ltac:(vm_compute; reflexivity) ltac:(vm_compute; reflexivity)).
Defined.

(** ** The extension taken from the URL *)

Module SuffixFacts.
Import Str.

Lemma lower_char_dotless (x : ascii) : dotless (lower_char x) = true -> dotless x = true.
Proof. destruct x as [[] [] [] [] [] [] [] []]; vm_compute; done. Qed.

Lemma lower_char_dot (x : ascii) : lower_char x = "."%char -> x = "."%char.
Proof. destruct x as [[] [] [] [] [] [] [] []]; vm_compute; intros E; done. Qed.

Lemma lower_dotless (s : string) :
  forallb dotless (lower s) = true -> forallb dotless s = true.
Proof.
  induction s as [|c s IH]; [done |]. cbn [lower forallb].
  intros [Hc Hs]%andb_true_iff. by rewrite (lower_char_dotless _ Hc), (IH Hs).
Qed.

(** A known image suffix, in any letter case, is a dot and then a
    non-empty text without dot or slash. *)
Lemma image_suffix_shape (sfx : string) :
  In (lower sfx) image_suffixes ->
  exists x e, sfx = String "." (String x e) /\ forallb dotless (String x e) = true.
Proof.
  intros Hin.
  assert (Hshape : exists t, lower sfx = String "." t /\ nonempty t = true
                             /\ forallb dotless t = true).
  { cbn in Hin. repeat (destruct Hin as [<-|Hin]; [eexists; by split |]). done. }
  destruct Hshape as (t & Hl & Hne & Hdl).
  destruct sfx as [|d e]; [done |]. cbn [lower] in Hl. injection Hl as Hd He.
  apply lower_char_dot in Hd. subst d.
  destruct e as [|x e]; [by subst t |].
  exists x, e. split; [done |]. apply lower_dotless. by rewrite He.
Qed.

Lemma endswith_app (a s : string) : endswith s (a +:+ s) = true.
Proof.
  induction a as [|c a IH].
  - destruct s; cbn [String.append endswith]; by rewrite String.eqb_refl.
  - cbn [String.append endswith]. by rewrite IH, orb_true_r.
Qed.

Lemma split_nonempty (sep : ascii) (s : string) : split sep s <> [].
Proof.
  induction s as [|c s IH]; [done |]. cbn [split].
  destruct (Ascii.eqb c sep); [done |]. by destruct (split sep s).
Qed.

(** Text without separator added to a string goes to its last component. *)
Lemma split_app_last (sep : ascii) (t : string) :
  forallb (fun x => negb (Ascii.eqb x sep)) t = true ->
  forall a, split sep (a +:+ t)
            = (removelast (split sep a) ++ [List.last (split sep a) "" +:+ t])%list.
Proof.
  intros Ht. induction a as [|c a IH].
  - cbn [String.append split removelast List.last app]. by apply StrFacts.split_all.
  - cbn [String.append split]. rewrite IH.
    pose proof (split_nonempty sep a) as Hne.
    destruct (Ascii.eqb c sep).
    + destruct (split sep a) as [|y more]; [done |]. reflexivity.
    + destruct (split sep a) as [|y more]; [done |].
      destruct more as [|z more]; reflexivity.
Qed.

Lemma last_filter_snoc (f : string -> bool) (l : list string) (z : string) :
  f z = true -> List.last (List.filter f (l ++ [z])) "" = z.
Proof.
  intros Hz. rewrite List.filter_app. cbn [List.filter]. rewrite Hz.
  apply last_last.
Qed.

Lemma from_last_dot_none (e : string) :
  forallb dotless e = true -> Path.from_last_dot e = None.
Proof.
  induction e as [|c e IH]; [done |]. cbn [forallb Path.from_last_dot].
  intros [Hc He]%andb_true_iff. rewrite (IH He).
  apply andb_true_iff in Hc as [Hc _]. apply negb_true_iff in Hc. by rewrite Hc.
Qed.

Lemma from_last_dot_cons (c : ascii) (s : string) :
  Path.from_last_dot (String c s) =
  match Path.from_last_dot s with
  | Some t => Some t
  | None => if Ascii.eqb c "." then Some (String c s) else None
  end.
Proof. reflexivity. Qed.

Lemma from_last_dot_app (a t t' : string) :
  Path.from_last_dot t = Some t' -> Path.from_last_dot (a +:+ t) = Some t'.
Proof.
  intros Ht. induction a as [|c a IH]; [done |].
  cbn [String.append Path.from_last_dot]. by rewrite IH.
Qed.

(** The suffix of a path whose last component is more than the suffix. *)
Lemma suffix_of_image (base sfx : string) (c : ascii) :
  c <> "/"%char -> In (lower sfx) image_suffixes ->
  Path.suffix (base +:+ String c sfx) = sfx.
Proof.
  intros Hc Hin. destruct (image_suffix_shape sfx Hin) as (x & e & -> & He).
  assert (Hdot : Path.from_last_dot (String "." (String x e)) = Some (String "." (String x e))).
  { by rewrite from_last_dot_cons, (from_last_dot_none _ He). }
  assert (Hslash : forallb (fun y => negb (Ascii.eqb y "/")) (String c (String "." (String x e)))
                   = true).
  { change (forallb (fun y => negb (Ascii.eqb y "/")) (String c (String "." (String x e))))
      with (negb (Ascii.eqb c "/")
            && (true && forallb (fun y => negb (Ascii.eqb y "/")) (String x e))).
    apply andb_true_iff. split.
    - apply negb_true_iff. by apply Ascii.eqb_neq.
    - cbn [andb]. eapply StrFacts.forallb_impl; [|exact He].
      by intros y [_ ?]%andb_true_iff. }
  unfold Path.suffix, Path.name.
  rewrite (split_app_last "/" _ Hslash), last_filter_snoc.
  2:{ unfold Path.component.
      destruct (List.last (split "/" base) "") as [|l [|l' L]]; cbn [String.append nonempty andb].
      - cbn [String.eqb]. by destruct (Ascii.eqb c ".").
      - cbn [String.eqb]. by destruct (Ascii.eqb l ".").
      - cbn [String.eqb]. by destruct (Ascii.eqb l "."). }
  destruct (List.last (split "/" base) "") as [|l L]; cbn [String.append].
  - rewrite Hdot. reflexivity.
  - assert (Hdot' : Path.from_last_dot (String c (String "." (String x e)))
                     = Some (String "." (String x e))).
    { by rewrite from_last_dot_cons, Hdot. }
    rewrite (from_last_dot_app L _ _ Hdot'). reflexivity.
Qed.

End SuffixFacts.

(** X12.  When the content type of the reply yields no extension: for a
    URL that ends with a known image suffix, in any letter case, after at
    least one more character of its last component, the extension is that
    suffix as the URL writes it; for a URL that ends with none of the
    suffixes it is [.jpg]. *)
Theorem extension_from_url `{PyLib} (url : string) (r : Response) :
  Str.nonempty (default "" (guessed r)) = false ->
  (forall (base sfx : string) (c : ascii),
     url = base +:+ String c sfx -> c <> "/"%char ->
     In (Str.lower sfx) image_suffixes ->
     extension url r = sfx)
  /\ (existsb (fun sfx => Str.endswith sfx (Str.lower url)) image_suffixes = false ->
      extension url r = ".jpg").
Proof.
  intros Hguess. unfold guessed in Hguess. unfold extension. rewrite Hguess. split.
  - intros base sfx c -> Hc Hin.
    assert (Hends : existsb (fun s => Str.endswith s (Str.lower (base +:+ String c sfx)))
                            image_suffixes = true).
    { apply existsb_exists. exists (Str.lower sfx). split; [done |].
      rewrite StrFacts.lower_app.
      change (Str.lower (String c sfx)) with (String (Str.lower_char c) (Str.lower sfx)).
      change (String (Str.lower_char c) (Str.lower sfx))
        with (String (Str.lower_char c) "" +:+ Str.lower sfx).
      rewrite <- StrFacts.append_assoc. apply SuffixFacts.endswith_app. }
    rewrite Hends. by apply SuffixFacts.suffix_of_image.
  - by intros ->.
Qed.

Lemma extension_from_url_witness :
  extension "https://example.com/banner.PNG" (response 200 None [] None) = ".PNG".
Proof.
  exact (proj1 (extension_from_url "https://example.com/banner.PNG"
                  (response 200 None [] None) ltac:(vm_compute; reflexivity))
               "https://example.com/banne" ".PNG" "r"%char
               ltac:(vm_compute; reflexivity) ltac:(discriminate)
               ltac:(vm_compute; tauto)).
Defined.

(** ** The cache lookup *)

Section LookupFacts.
Context `{PyLib}.
Import Str PathFacts.

Lemma fnmatch_literal_prefix (a pat n : string) :
  forallb literal a = true -> Path.fnmatch (a +:+ pat) n = true ->
  exists n', n = a +:+ n' /\ Path.fnmatch pat n' = true.
Proof.
  revert n. induction a as [|c a IH]; intros n; [eauto |].
  cbn [forallb]. intros [Hc Ha]%andb_true_iff.
  apply andb_true_iff in Hc as [H1%negb_true_iff H2%negb_true_iff].
  cbn [String.append].
  assert (Hstep : Path.fnmatch (String c (a +:+ pat)) n =
                  match n with
                  | "" => false
                  | String d n' => Ascii.eqb c d && Path.fnmatch (a +:+ pat) n'
                  end).
  { destruct c as [[] [] [] [] [] [] [] []]; try discriminate; reflexivity. }
  rewrite Hstep. destruct n as [|d n]; [done |].
  intros [Hcd Hm]%andb_true_iff. apply Ascii.eqb_eq in Hcd. subst d.
  destruct (IH n Ha Hm) as (n' & -> & Hn'). eauto.
Qed.

Lemma cache_pattern_prefix (owner repo : string) :
  cache_pattern owner repo = cache_prefix owner repo +:+ "*".
Proof. unfold cache_pattern, cache_prefix. by rewrite !StrFacts.append_assoc. Qed.

Lemma cache_prefix_literal (owner repo : string) :
  safe owner -> safe repo -> forallb literal (cache_prefix owner repo) = true.
Proof.
  intros Ho Hr. unfold cache_prefix.
  assert (Hpre : safe (owner +:+ "-" +:+ repo +:+ "-opengraph.")).
  { unfold safe. rewrite StrFacts.forallb_app. cbn [String.append forallb].
    rewrite StrFacts.forallb_app. by rewrite Ho, Hr. }
  eapply StrFacts.forallb_impl; [|exact Hpre]. intros c Hc. unfold literal.
  by rewrite !(Ascii.eqb_sym c), !safe_char_not.
Qed.

(** For a safe owner and name the pattern matches the names that start
    with the prefix, and no other. *)
Lemma cache_pattern_matches (owner repo n : string) :
  safe owner -> safe repo ->
  Path.fnmatch (cache_pattern owner repo) n = true <->
  exists e, n = cache_prefix owner repo +:+ e.
Proof.
  intros Ho Hr. rewrite cache_pattern_prefix. split.
  - intros Hm.
    destruct (fnmatch_literal_prefix _ _ _ (cache_prefix_literal _ _ Ho Hr) Hm)
      as (e & -> & _). eauto.
  - intros [e ->]. rewrite fnmatch_literal by by apply cache_prefix_literal.
    apply fnmatch_star.
Qed.

End LookupFacts.

(** X13.  For an owner and a name that [sanitize] leaves alone, the cache
    lookup is a test on file names: it misses exactly when no file of the
    download directory has a name that starts with
    [owner-name-opengraph.], and what it finds is such a file of the
    directory; it always answers, and leaves the world as it is. *)
Theorem cache_lookup_is_prefix_test `{PyLib} (owner repo : string) (w : World) :
  safe owner -> safe repo ->
  (find_cached owner repo w = Done None w <->
   forall e, files w !! (cache_prefix owner repo +:+ e) = None)
  /\ (forall p w', find_cached owner repo w = Done (Some p) w' ->
        w' = w /\ is_Some (files w !! p) /\ exists e, p = cache_prefix owner repo +:+ e)
  /\ exists found, find_cached owner repo w = Done found w.
Proof.
  intros Ho Hr.
  assert (Hplain : Path.plain_pattern (cache_pattern owner repo) = true).
  { by apply (cache_name_matches owner repo ".x" Ho Hr ltac:(done) ltac:(eauto)). }
  unfold find_cached, Path.glob. rewrite Hplain.
  set (names := List.map fst (map_to_list (files w))).
  assert (Hnames : forall n, In n names <-> is_Some (files w !! n)).
  { intros n. unfold names. rewrite in_map_iff. split.
    - intros [[k v] [<- Hkv]]. apply list_elem_of_In, elem_of_map_to_list in Hkv.
      cbn. eauto.
    - intros [v Hv]. exists (n, v). split; [done |].
      by apply list_elem_of_In, elem_of_map_to_list. }
  destruct (List.filter (Path.fnmatch (cache_pattern owner repo)) names) as [|p l] eqn:Hf.
  - split; [|split; [done | eauto]]. split; [|done]. intros _ e.
    destruct (files w !! (cache_prefix owner repo +:+ e)) eqn:Hl; [|done].
    exfalso. assert (Hin : In (cache_prefix owner repo +:+ e)
                             (List.filter (Path.fnmatch (cache_pattern owner repo)) names)).
    { apply filter_In. split; [apply Hnames; eauto |].
      apply cache_pattern_matches; eauto. }
    by rewrite Hf in Hin.
  - assert (Hp : In p (List.filter (Path.fnmatch (cache_pattern owner repo)) names)).
    { rewrite Hf. by left. }
    apply filter_In in Hp as [Hin Hm].
    apply Hnames in Hin. apply cache_pattern_matches in Hm as [e ->]; [|done|done].
    split; [|split; [|eauto]].
    + split; [done |]. intros Hall. specialize (Hall e).
      destruct Hin as [v Hv]. congruence.
    + intros p' w' [= <- <-]. eauto.
Qed.

Lemma cache_lookup_is_prefix_test_witness :
  exists found, find_cached "octocat" "Hello-World" empty_world = Done found empty_world.
Proof.
  exact (proj2 (proj2 (cache_lookup_is_prefix_test "octocat" "Hello-World" empty_world
                         ltac:(by vm_compute) ltac:(by vm_compute)))).
Defined.

(** ** The handlers *)

Module QuoteFacts.
Import Quote.

Lemma percent_chars (safe : string) (b : ascii) :
  Str.forallb (quoted_char safe) (percent b) = true.
Proof.
  assert (Hb : Str.forallb (fun c => always_safe c || Ascii.eqb c "%") (percent b) = true).
  { destruct b as [[] [] [] [] [] [] [] []]; vm_compute; reflexivity. }
  eapply StrFacts.forallb_impl; [|exact Hb]. intros c Hc. unfold quoted_char.
  apply orb_true_iff in Hc as [-> | ->]; [done | by rewrite orb_true_r].
Qed.

Lemma quote_byte_chars (safe : string) (b : ascii) :
  Str.forallb (quoted_char safe) (quote_byte safe b) = true.
Proof.
  unfold quote_byte. destruct (always_safe b || Str.mem b safe) eqn:E.
  - cbn [Str.forallb]. unfold quoted_char. by rewrite E.
  - apply percent_chars.
Qed.

Lemma quote_chars (safe s : string) :
  Str.forallb (quoted_char safe) (quote safe s) = true.
Proof.
  induction s as [|c s IH]; [done |]. cbn [quote].
  rewrite StrFacts.forallb_app, IH, andb_true_r.
  unfold utf8. destruct (Str.ord c <? 128)%N; cbn [List.map Str.join].
  - rewrite StrFacts.forallb_app, quote_byte_chars. done.
  - rewrite !StrFacts.forallb_app, !quote_byte_chars. done.
Qed.

Lemma safe_char_always_safe (c : ascii) : safe_char c = true -> always_safe c = true.
Proof. destruct c as [[] [] [] [] [] [] [] []]; vm_compute; done. Qed.

Lemma safe_char_ascii (c : ascii) : safe_char c = true -> (Str.ord c <? 128)%N = true.
Proof. destruct c as [[] [] [] [] [] [] [] []]; vm_compute; done. Qed.

Lemma quote_safe (sf s : string) : safe s -> quote sf s = s.
Proof.
  unfold safe. induction s as [|c s IH]; [done |]. cbn [Str.forallb quote].
  intros [Hc Hs]%andb_true_iff. rewrite (IH Hs). unfold utf8.
  rewrite (safe_char_ascii c Hc). cbn [List.map Str.join]. unfold quote_byte.
  rewrite (safe_char_always_safe c Hc). reflexivity.
Qed.

Lemma quoted_no_delimiter (safe s : string) (d : ascii) :
  quoted_char safe d = false -> Str.mem d (quote safe s) = false.
Proof.
  intros Hd. apply StrFacts.mem_false_forallb.
  eapply StrFacts.forallb_impl; [|apply (quote_chars safe s)].
  intros c Hc. apply negb_true_iff.
  destruct (Ascii.eqb_spec d c) as [->|]; [congruence | done].
Qed.

End QuoteFacts.

(** X14.  Whatever characters the owner, the name and the image URL hold,
    the link to [/save] carries exactly its three parameters: cut at the
    ampersands it has three parts, the quoted values have no ampersand,
    equals sign, hash, question mark, space or quote of their own, and an
    owner and a name that [sanitize] leaves alone appear as they are. *)
Theorem download_href_parameters (owner repo img_url : string) :
  Str.split "&" (download_href owner repo img_url)
  = ["/save?owner=" +:+ Quote.quote "/" owner;
     "repo=" +:+ Quote.quote "/" repo;
     "img_url=" +:+ Quote.quote ":/" img_url]
  /\ (forall (value safe_set : string) (c : ascii),
        safe_set = "/" \/ safe_set = ":/" ->
        Str.mem c (String "&" (String "=" (String "#" (String "?" (String " "
                    (String Re.DQUOTE "'")))))) = true ->
        Str.mem c (Quote.quote safe_set value) = false)
  /\ (safe owner -> safe repo ->
      download_href owner repo img_url
      = "/save?owner=" +:+ owner +:+ "&repo=" +:+ repo
        +:+ "&img_url=" +:+ Quote.quote ":/" img_url).
Proof.
  assert (Hdelim : forall (value safe_set : string) (c : ascii),
            safe_set = "/" \/ safe_set = ":/" ->
            Str.mem c (String "&" (String "=" (String "#" (String "?" (String " "
                        (String Re.DQUOTE "'")))))) = true ->
            Str.mem c (Quote.quote safe_set value) = false).
  { intros value safe_set c Hsafe Hc. apply QuoteFacts.quoted_no_delimiter.
    cbn [Str.mem] in Hc.
    repeat (apply orb_true_iff in Hc as [Hc|Hc];
            [apply Ascii.eqb_eq in Hc; subst c; by destruct Hsafe as [-> | ->] |]).
    done. }
  assert (Hamp : forall value safe_set, safe_set = "/" \/ safe_set = ":/" ->
            Str.forallb (fun x => negb (Ascii.eqb x "&")) (Quote.quote safe_set value) = true).
  { intros value safe_set Hsafe.
    assert (Hm : Str.mem "&" (Quote.quote safe_set value) = false)
      by (apply Hdelim; [done | reflexivity]).
    apply StrFacts.mem_false_forallb in Hm.
    eapply StrFacts.forallb_impl; [|exact Hm]. intros x Hx.
    by rewrite Ascii.eqb_sym. }
  split; [|split].
  - unfold download_href.
    rewrite <- (StrFacts.append_assoc "/save?owner=").
    change ("&repo=" +:+ ?x) with (String "&" ("repo=" +:+ x)).
    rewrite StrFacts.split_app.
    2:{ rewrite StrFacts.forallb_app. by rewrite Hamp; [|left]. }
    f_equal.
    rewrite <- (StrFacts.append_assoc "repo=").
    change ("&img_url=" +:+ ?x) with (String "&" ("img_url=" +:+ x)).
    rewrite StrFacts.split_app.
    2:{ rewrite StrFacts.forallb_app. by rewrite Hamp; [|left]. }
    f_equal. rewrite StrFacts.split_all; [done |].
    rewrite StrFacts.forallb_app. by rewrite Hamp; [|right].
  - exact Hdelim.
  - intros Ho Hr. unfold download_href.
    by rewrite (QuoteFacts.quote_safe "/" owner Ho), (QuoteFacts.quote_safe "/" repo Hr).
Qed.

Section HandlerFacts.
Context `{PyLib} (env : Env) (exn_text : exn -> string).

Lemma glob_head_is_file (fs : gmap string string) (pat p : string) (l : list string) :
  Path.glob fs pat = Some (p :: l) -> is_Some (fs !! p).
Proof.
  unfold Path.glob. destruct (Path.plain_pattern pat); [|done].
  intros [= Hg].
  assert (Hin : In p (p :: l)) by by left.
  rewrite <- Hg in Hin. apply filter_In in Hin as [Hin _].
  apply in_map_iff in Hin as ([k v] & <- & Hkv).
  apply list_elem_of_In, elem_of_map_to_list in Hkv. eauto.
Qed.

(** A name that [attempts] returns is the name of a file. *)
Lemma attempts_done_file (n : nat) : forall b url owner repo w name w',
  attempts env n b url owner repo w = Done name w' -> is_Some (files w' !! name).
Proof.
  induction n as [|n IH]; intros b url owner repo w name w'; [done |].
  destruct (net env (length (sent w)) (download_request url owner repo)) as [r|e] eqn:Hr.
  2:{ by rewrite (attempts_no_answer _ _ _ _ _ _ _ e Hr). }
  destruct (Z.eq_dec (status_code r) 429%Z) as [Hs|Hs].
  - rewrite (attempts_rate_limited env 1); [| lia |].
    + cbn [Nat.sub]. rewrite Nat.sub_0_r. apply IH.
    + intros i Hi. exists r. by replace i with 0%nat by lia; rewrite Nat.add_0_r.
  - destruct (http_error (status_code r)) eqn:Herr.
    + by rewrite (attempts_http_error _ _ _ _ _ _ _ r Hr Hs Herr).
    + rewrite (attempts_reply _ _ _ _ _ _ _ r Hr Hs Herr).
      destruct (stream_error r); [done |]. intros [= <- <-]. cbn [files].
      rewrite lookup_insert_eq. eauto.
Qed.

Lemma download_done_file (url owner repo : string) (max_retries : Z) (w w' : World)
    (name : string) :
  download_with_retry env url owner repo max_retries w = Done name w' ->
  is_Some (files w' !! name).
Proof.
  unfold download_with_retry, bind, find_cached.
  destruct (Path.glob (files w) (cache_pattern owner repo)) as [[|p l]|] eqn:Hg; [| |done].
  - apply attempts_done_file.
  - unfold ret. intros [= <- <-]. by apply (glob_head_is_file _ _ _ _ Hg).
Qed.

(** What [resolve_og] returns: the owner and the name that the parser
    reads, and an image value that is not empty. *)
Lemma resolve_og_done (url owner repo : string) (v : json) (w w' : World) :
  resolve_og env url w = Done (owner, repo, v) w' ->
  parse_owner_repo url = Ok (owner, repo) /\ truthy v = true.
Proof.
  unfold resolve_og.
  destruct (parse_owner_repo url) as [[o r]|e]; cbn [lift]; [|done].
  unfold bind at 1, ret at 1. cbn [fst snd].
  assert (Hscrape : forall w0, scrape env o r w0 = Done (owner, repo, v) w' ->
            Ok (o, r) = Ok (owner, repo) /\ truthy v = true).
  { intros w0. unfold scrape, bind.
    destruct (get_og_from_html env _ w0) as [[u|] w1| |] eqn:Hg; [|done..].
    unfold ret. intros [= <- <- <- <-]. split; [done |].
    revert Hg. unfold get_og_from_html, bind, session_request.
    destruct (net env _ _) as [rs|]; [|done].
    unfold raise_for_status. destruct (http_error (status_code rs)); [done |].
    unfold ret. intros [= Hs _].
    destruct (Re.search Re.og_image (text rs)) as [g|] eqn:Hsearch; [|done].
    cbn in Hs. subst g.
    destruct (ReFacts.og_image_group _ _ Hsearch) as [Hne _].
    by destruct u. }
  destruct (configured_token env) as [token|].
  2:{ unfold bind at 1, ret at 1. apply Hscrape. }
  unfold bind at 1, catch, bind at 1.
  destruct (get_og_via_graphql env o r token w) as [v1 w1|e w1|]; [| |done].
  - unfold ret at 1. destruct (truthy v1) eqn:Hv1.
    + unfold ret. by intros [= <- <- <- <-].
    + apply Hscrape.
  - unfold ret at 1. apply Hscrape.
Qed.

Lemma resolve_og_modelled (url : string) (w : World) :
  resolve_og env url w <> Unmodelled.
Proof.
  unfold resolve_og.
  destruct (parse_owner_repo url) as [[o r]|e]; cbn [lift]; [|done].
  unfold bind at 1, ret at 1. cbn [fst snd].
  assert (Hscrape : forall w0, scrape env o r w0 <> Unmodelled).
  { intros w0. pose proof (scrape_request env o r w0) as Hs.
    by destruct (scrape env o r w0). }
  destruct (configured_token env) as [token|].
  2:{ unfold bind at 1, ret at 1. apply Hscrape. }
  unfold bind at 1, catch, bind at 1.
  pose proof (get_og_via_graphql_world env o r token w) as Hw1.
  destruct (get_og_via_graphql env o r token w) as [v1 w1|e w1|]; [| |done].
  - unfold ret at 1. destruct (truthy v1); [done | apply Hscrape].
  - unfold ret at 1. apply Hscrape.
Qed.


End HandlerFacts.

(** X15.  For an owner and a name whose lookup pattern stays in the
    download directory (no slash, no bracket, no double star), [/save]
    never lets an exception escape.  It answers with a file only when the
    download returned a name, and that name is then a file of the download
    directory; otherwise it answers with a JSON document whose status is
    429 or 400 and whose only field is the text of the error that the
    download raised. *)
Theorem save_reply_shape `{PyLib} (env : Env) (exn_text : exn -> string)
    (owner repo img_url : string) (w : World) :
  Path.plain_pattern (cache_pattern owner repo) = true ->
  match save env exn_text owner repo img_url w with
  | Done (FileReply name) w' =>
      download_with_retry env img_url owner repo default_max_retries w = Done name w'
      /\ is_Some (files w' !! name)
  | Done (JsonReply status body) w' =>
      (status = 429 \/ status = 400)%Z
      /\ exists e, download_with_retry env img_url owner repo default_max_retries w
                   = Failed e w'
                   /\ body = JObj [("error", JStr (str_exn exn_text e))]
  | Failed _ _ => False
  | Unmodelled => False
  end.
Proof.
  intros Hplain.
  pose proof (download_only_cache_file env img_url owner repo default_max_retries w
                Hplain) as Hframe.
  unfold save, try_except, bind.
  destruct (download_with_retry env img_url owner repo default_max_retries w)
    as [name w'|e w'|] eqn:Hd; [| |exact Hframe].
  - unfold ret. split; [done |]. by apply (download_done_file env _ _ _ _ _ _ _ Hd).
  - unfold ret. split.
    + destruct (Str.contains _ _); [by left | by right].
    + by exists e.
Qed.

Lemma save_reply_shape_witness :
  match save (limited_then_png 1) (fun _ => "") "octocat" "Hello-World" image_url
             empty_world with
  | Done (FileReply name) w' =>
      download_with_retry (limited_then_png 1) image_url "octocat" "Hello-World"
                          default_max_retries empty_world = Done name w'
      /\ is_Some (files w' !! name)
  | Done (JsonReply status body) w' =>
      (status = 429 \/ status = 400)%Z
      /\ exists e, download_with_retry (limited_then_png 1) image_url "octocat"
                     "Hello-World" default_max_retries empty_world
                   = Failed e w'
                   /\ body = JObj [("error", JStr (str_exn (fun _ => "") e))]
  | Failed _ _ => False
  | Unmodelled => False
  end.
Proof.
  exact (save_reply_shape (limited_then_png 1) (fun _ => "") "octocat" "Hello-World"
           image_url empty_world ltac:(vm_compute; reflexivity)).
Defined.

(** X16.  When the cache has no file of the owner and the name and every
    one of the five attempts is answered with 429, [/save] answers with
    status 429 and the rate-limit message, after five requests, and the
    download directory is as it was. *)
Theorem save_rate_limited `{PyLib} (env : Env) (exn_text : exn -> string)
    (owner repo img_url : string) (w : World) :
  find_cached owner repo w = Done None w ->
  rate_limited env 5 (download_request img_url owner repo) w ->
  exists w',
    save env exn_text owner repo img_url w
    = Done (JsonReply 429 (JObj [("error", JStr rate_limited_message)])) w'
    /\ files w' = files w
    /\ sent w' = (repeat (download_request img_url owner repo) 5 ++ sent w)%list.
Proof.
  intros Hmiss Hlim. unfold save, try_except, bind.
  rewrite (download_exhausted env img_url owner repo default_max_retries w Hmiss Hlim).
  eexists. split; [|split].
  - unfold ret. reflexivity.
  - reflexivity.
  - reflexivity.
Qed.

Lemma save_rate_limited_witness :
  exists w',
    save (limited_then_png 5) (fun _ => "") "octocat" "Hello-World" image_url empty_world
    = Done (JsonReply 429 (JObj [("error", JStr rate_limited_message)])) w'
    /\ files w' = files empty_world
    /\ sent w' = (repeat (download_request image_url "octocat" "Hello-World") 5
                  ++ sent empty_world)%list.
Proof.
  exact (save_rate_limited (limited_then_png 5) (fun _ => "") "octocat" "Hello-World"
           image_url empty_world
           (empty_world_miss "octocat" "Hello-World" ltac:(vm_compute; reflexivity))
           (limited_then_png_rate_limited 5 5 _ (le_n 5))).
Defined.

(** X17.  [/api/og] never lets an exception escape and never answers with
    a file.  Status 200 comes with the owner and the name that the parser
    reads from the URL and with an image value that is not empty; every
    failure of the resolver comes as status 400 with the text of its
    error. *)
Theorem api_og_reply_shape `{PyLib} (env : Env) (exn_text : exn -> string)
    (url : string) (w : World) :
  exists (status : Z) (body : json) (w' : World),
    api_og env exn_text url w = Done (JsonReply status body) w'
    /\ ((status = 200%Z
         /\ exists owner repo v,
              parse_owner_repo url = Ok (owner, repo)
              /\ truthy v = true
              /\ resolve_og env url w = Done (owner, repo, v) w'
              /\ body = JObj [("owner", JStr owner); ("repo", JStr repo); ("image_url", v)])
        \/ (status = 400%Z
            /\ exists e, resolve_og env url w = Failed e w'
                         /\ body = JObj [("error", JStr (str_exn exn_text e))])).
Proof.
  unfold api_og, try_except, bind.
  pose proof (resolve_og_modelled env url w) as Hm.
  destruct (resolve_og env url w) as [[[owner repo] v] w'|e w'|] eqn:Hr; [| |done].
  - destruct (resolve_og_done env _ _ _ _ _ _ Hr) as [Hp Hv].
    exists 200%Z, (JObj [("owner", JStr owner); ("repo", JStr repo); ("image_url", v)]), w'.
    split; [done |]. left. split; [done |]. by exists owner, repo, v.
  - exists 400%Z, (JObj [("error", JStr (str_exn exn_text e))]), w'.
    split; [done |]. right. split; [done |]. by exists e.
Qed.



(** X19.  The whole of [fetch] without a token: when the URL parses and
    the public page of the repository arrives with the Open Graph tag in
    its usual form as its first [<meta], the page shows the owner, the
    name, the content of the tag and the link to [/save] built from them,
    after one request, the GET of https://github.com/owner/repo. *)
Theorem fetch_shows_scraped_image `{PyLib} (env : Env) (exn_text : exn -> string)
    (url owner repo : string) (w : World) (r : Response) (pre u gap post : string) :
  parse_owner_repo url = Ok (owner, repo) ->
  Str.forallb isspace (default "" (GITHUB_TOKEN env)) = true ->
  net env (length (sent w)) (page_request (repo_page owner repo)) = Answer r ->
  http_error (status_code r) = false ->
  text r = pre +:+ og_tag u gap +:+ post ->
  occurs "<meta" pre = false ->
  u <> "" -> Str.forallb plain_char u = true -> Str.forallb plain_char gap = true ->
  fetch env exn_text url w
  = Done (Shown owner repo (JStr u) (download_href owner repo u))
         (after_request (page_request (repo_page owner repo)) w).
Proof.
  intros Hparse Hblank Hr Herr Htext Hpre Hne Hu Hgap.
  unfold fetch, try_except, bind at 1, resolve_og. rewrite Hparse.
  rewrite (proj2 (configured_token_none env) Hblank). cbn [lift].
  unfold bind at 1, ret at 1. cbn [fst snd]. unfold bind at 1, ret at 1.
  unfold scrape, bind at 1. fold (repo_page owner repo).
  unfold get_og_from_html, bind at 1, session_request.
  fold (page_request (repo_page owner repo)). rewrite Hr.
  fold (after_request (page_request (repo_page owner repo)) w).
  unfold bind, raise_for_status. rewrite Herr. unfold ret.
  by rewrite Htext, search_og_tag.
Qed.

Lemma fetch_shows_scraped_image_witness :
  fetch (always (page ("<head>" +:+ og_tag image_url "" +:+ "</head>"))) (fun _ => "")
        "https://github.com/octocat/Hello-World.git" empty_world
  = Done (Shown "octocat" "Hello-World" (JStr image_url)
                (download_href "octocat" "Hello-World" image_url))
         (after_request (page_request (repo_page "octocat" "Hello-World")) empty_world).
Proof.
  exact (fetch_shows_scraped_image
           (always (page ("<head>" +:+ og_tag image_url "" +:+ "</head>"))) (fun _ => "")
           "https://github.com/octocat/Hello-World.git" "octocat" "Hello-World"
           empty_world _ "<head>" image_url "" "</head>"
           ltac:(vm_compute; reflexivity) ltac:(vm_compute; reflexivity)
           eq_refl ltac:(vm_compute; reflexivity) eq_refl
           ltac:(vm_compute; reflexivity) ltac:(by vm_compute)
           ltac:(vm_compute; reflexivity) ltac:(vm_compute; reflexivity)).
Defined.

(** ** What the parser does not look at *)

Section TailIgnored.
Context `{PyLib}.
Import Str StrFacts TailFacts.

(** A mark [#], or a mark [?] with no [#] before it, and what follows it,
    change neither the network location nor the path. *)
Lemma after_scheme_tail (sch rest t : string) (c : ascii) :
  (c = "#"%char /\ mem "#" rest = false)
  \/ (c = "?"%char /\ mem "?" rest = false /\ mem "#" rest = false) ->
  match after_scheme sch rest, after_scheme sch (rest +:+ String c t) with
  | Ok p, Ok q => Url.netloc p = Url.netloc q /\ Url.path p = Url.path q
  | Raise e, Raise e' => e = e'
  | _, _ => False
  end.
Proof.
  intros Hc. unfold after_scheme. rewrite remove_app.
  assert (Hctl : remove CONTROLS (String c t) = String c (remove CONTROLS t)).
  { by destruct Hc as [[-> _]|[-> _]]. }
  rewrite Hctl. set (r := remove CONTROLS rest). set (t' := remove CONTROLS t).
  assert (Hstop : mem c "/?#" = true) by by destruct Hc as [[-> _]|[-> _]].
  assert (Hhash : mem "#" r = false).
  { apply mem_remove. by destruct Hc as [[_ ?]|[_ [_ ?]]]. }
  destruct (break_parts (fun x => mem x "/?#") r) as (Hr & Hloc & Hu).
  set (loc := fst (break (fun x => mem x "/?#") r)) in *.
  set (u := snd (break (fun x => mem x "/?#") r)) in *.
  assert (Hb : break (fun x => mem x "/?#") (r +:+ String c t') = (loc, u +:+ String c t')).
  { rewrite Hr at 1. rewrite append_assoc.
    destruct Hu as [Hu|(d & u' & Hu & Hd)]; rewrite Hu; cbn [String.append].
    - by apply break_app.
    - by apply break_app. }
  rewrite Hb. cbn [fst snd].
  destruct (Url.check_brackets loc); cbn [rbind]; [|done]. cbn [Url.netloc Url.path].
  split; [done |].
  assert (Hu_hash : forallb (fun x => negb (Ascii.eqb "#" x)) u = true).
  { apply mem_false_forallb. rewrite Hr, mem_app in Hhash.
    by apply orb_false_iff in Hhash as [_ ?]. }
  rewrite (break_all (Ascii.eqb "#") u) by done. cbn [fst snd].
  destruct Hc as [[-> _]|[-> [Hq _]]].
  - rewrite (break_app (Ascii.eqb "#") u "#" t') by done. reflexivity.
  - rewrite (break_app_pass (Ascii.eqb "#") u) by done. cbn [fst snd].
    assert (Hu_q : forallb (fun x => negb (Ascii.eqb "?" x)) u = true).
    { apply mem_false_forallb.
      assert (Hq' : mem "?" r = false) by by apply mem_remove.
      rewrite Hr, mem_app in Hq'. by apply orb_false_iff in Hq' as [_ ?]. }
    change (break (Ascii.eqb "#") (String "?" t'))
      with (let '(ta, tb) := break (Ascii.eqb "#") t' in (String "?" ta, tb)).
    destruct (break (Ascii.eqb "#") t') as [ta tb]. cbn [fst snd].
    rewrite (break_app (Ascii.eqb "?") u "?" ta) by done.
    rewrite (break_all (Ascii.eqb "?") u) by done. reflexivity.
Qed.

End TailIgnored.

(** X20.  A fragment after the URL, or a query string after a URL that has
    neither a query nor a fragment, changes nothing: [parse_owner_repo]
    gives the same owner and name, or fails with the same error. *)
Theorem parse_ignores_query_and_fragment `{PyLib} (url tail : string) (c : ascii) :
  (c = "#"%char /\ Str.mem "#" url = false)
  \/ (c = "?"%char /\ Str.mem "?" url = false /\ Str.mem "#" url = false) ->
  parse_owner_repo (url +:+ String c tail) = parse_owner_repo url.
Proof.
  intros Hc.
  assert (Hcs : Str.mem c "https://" = false) by by destruct Hc as [[-> _]|[-> _]].
  destruct (TailFacts.with_scheme_tail url tail c Hcs) as (sch & rest & Hsch & Hu & Hut & Hm).
  unfold parse_owner_repo. rewrite Hu, Hut.
  rewrite !TailFacts.urlparse_after_scheme by done.
  assert (Hrest : (c = "#"%char /\ Str.mem "#" rest = false)
                  \/ (c = "?"%char /\ Str.mem "?" rest = false /\ Str.mem "#" rest = false)).
  { destruct Hc as [[-> Hx]|[-> [Hx Hy]]].
    - left. split; [done | by apply Hm].
    - right. split; [done |]. split; by apply Hm. }
  pose proof (after_scheme_tail sch rest tail c Hrest) as Ht.
  destruct (after_scheme sch rest) as [p|e],
           (after_scheme sch (rest +:+ String c tail)) as [q|e']; try done.
  - destruct Ht as [Hn Hp]. cbn [rbind]. by rewrite Hn, Hp.
  - by subst.
Qed.

Lemma parse_ignores_query_and_fragment_witness :
  parse_owner_repo ("github.com/octocat/Hello-World" +:+ String "?" "tab=readme#top")
  = parse_owner_repo "github.com/octocat/Hello-World".
Proof.
  exact (parse_ignores_query_and_fragment "github.com/octocat/Hello-World"
           "tab=readme#top" "?" (or_intror (conj eq_refl (conj eq_refl eq_refl)))).
Defined.

Section ShapeFacts.
Import Str StrFacts.

Lemma split_no_sep (sep : ascii) (s : string) :
  Forall (fun x => forallb (fun c => negb (Ascii.eqb c sep)) x = true) (split sep s).
Proof.
  induction s as [|c s IH]; cbn [split]; [by repeat constructor |].
  destruct (Ascii.eqb c sep) eqn:Hc; [by constructor |].
  destruct (split sep s) as [|x more]; [by repeat constructor; cbn; rewrite Hc |].
  inversion IH as [|? ? Hx Hmore]; subst. constructor; [|done].
  cbn [forallb]. by rewrite Hc, Hx.
Qed.

Lemma sub_dot_git_no_slash (s : string) :
  forallb (fun c => negb (Ascii.eqb c "/")) s = true ->
  forallb (fun c => negb (Ascii.eqb c "/")) (sub_dot_git s) = true.
Proof.
  induction s as [|c s IH]; [done |]. cbn [forallb sub_dot_git].
  intros [Hc Hs]%andb_true_iff.
  destruct (String.eqb _ ".git"); [done |].
  destruct (String.eqb _ _); [done |].
  cbn [forallb]. by rewrite Hc, IH.
Qed.

Lemma segments_shape (path : string) :
  Forall (fun x => x <> "" /\ forallb (fun c => negb (Ascii.eqb c "/")) x = true)
         (segments path).
Proof.
  unfold segments. apply List.Forall_forall. intros x [Hin Hne]%filter_In.
  split; [by destruct x |].
  pose proof (split_no_sep "/" path) as Hall.
  rewrite List.Forall_forall in Hall. by apply Hall.
Qed.

End ShapeFacts.

(** X21.  An owner that the parser returns is not empty, and neither the
    owner nor the name has a slash in it. *)
Theorem parse_result_shape `{PyLib} (url owner repo : string) :
  parse_owner_repo url = Ok (owner, repo) ->
  owner <> "" /\ Str.mem "/" owner = false /\ Str.mem "/" repo = false.
Proof.
  unfold parse_owner_repo.
  destruct (Url.urlparse (with_scheme url)) as [parsed|]; [|done]. cbn [rbind].
  destruct (negb _); [done |].
  pose proof (segments_shape (Url.path parsed)) as Hall.
  destruct (segments (Url.path parsed)) as [|a [|b l]]; [done | done |].
  intros [= <- <-].
  inversion Hall as [|? ? [Ha1 Ha2] Hrest]; subst.
  inversion Hrest as [|? ? [Hb1 Hb2] _]; subst.
  assert (Hflip : forall s, Str.forallb (fun c => negb (Ascii.eqb c "/")) s = true ->
                            Str.mem "/" s = false).
  { intros s Hs. apply StrFacts.mem_false_forallb.
    eapply StrFacts.forallb_impl; [|exact Hs]. intros c Hc. by rewrite Ascii.eqb_sym. }
  split; [done |]. split; [by apply Hflip |].
  by apply Hflip, sub_dot_git_no_slash.
Qed.

Lemma parse_result_shape_witness :
  "octocat" <> "" /\ Str.mem "/" "octocat" = false /\ Str.mem "/" "Hello-World" = false.
Proof.
  exact (parse_result_shape "http://github.com//octocat///Hello-World.GIT/issues/"
           "octocat" "Hello-World" ltac:(vm_compute; reflexivity)).
Defined.
